(** * The menu builder's store: a shallow embedding of
      [src/scripts/menuBuilder.js] (class [MenuBuilder]).

    The class keeps four arrays ([categories], [products], [modifiers],
    [currentOptions]) and mutates them from its event handlers.  Each handler
    is embedded as a computation in a small state-and-exception monad over
    those arrays.  What a handler reads from the page (the constants at the
    top of its body: [parseInt(...)], [value.trim()], ...) is the argument of
    its embedding; the toast it shows is its result.  The elements that the
    handlers look up by id are taken to be on the page.  [localStorage]
    appears only as the item that [saveToLocalStorage] writes and
    [loadFromLocalStorage] reads.

    The rendering methods ([updateCategoriesTable], [updateProductsTable],
    [updateModifiersTable], [updateOptionsList], [updatePreview],
    [updateJSONOutput]) are not part of the model.  A handler calls them
    after the assignments to the store that its embedding shows and before
    its success toast.  They write nothing to the store, but they can throw:
    [updateProductsTable], [updateModifiersTable], [updateOptionsList] and
    [updatePreview] call [toFixed] on a price or an option value, a
    [TypeError] when that value is not a number, which import and
    [localStorage] allow; and all of them put names and ids into template
    strings, a [TypeError] for an object that has no string conversion.  So

    - the store that a handler leaves is the store of the model, whether the
      rendering throws or not;
    - an error toast of the model is the toast of the page (the checks return
      before any rendering);
    - a success toast of the model is the toast of the page when the tables
      can be rendered, as they can on the sample stores below.

    The statements about arbitrary stores are therefore about the store that
    is left, and about the toasts of the checks. *)

From Stdlib Require Import List String Ascii ZArith QArith Qcanon Bool Arith Lia.
Import ListNotations.
Local Open Scope string_scope.
Set Warnings "-register-all".

(** ** JavaScript values *)

Module JS.

(** A JavaScript number: the finite doubles are read as the rationals they
    denote (no arithmetic is ever done on them by the store), [-0] is
    identified with [0] as [===] does. *)
Inductive jsnum : Type :=
| NaN
| Inf (negative : bool)
| Fin (q : Qc).

Definition int (z : Z) : jsnum := Fin (Q2Qc (inject_Z z)).

(** The values that flow through the store: primitives, and the arrays and
    plain objects that [JSON.parse] and object literals build. *)
Inductive jsval : Type :=
| JUndefined
| JNull
| JBool (b : bool)
| JNum (n : jsnum)
| JStr (s : string)
| JArr (elems : list jsval)
| JObj (props : list (string * jsval)).

(** [a === b] on numbers. *)
Definition num_eq (a b : jsnum) : bool :=
  match a, b with
  | Fin p, Fin q => Qc_eq_bool p q
  | Inf x, Inf y => Bool.eqb x y
  | _, _ => false
  end.

(** [a < b] on numbers; every comparison with [NaN] is false. *)
Definition num_lt (a b : jsnum) : bool :=
  match a, b with
  | NaN, _ | _, NaN => false
  | Inf x, Inf y => x && negb y
  | Inf x, Fin _ => x
  | Fin _, Inf y => negb y
  | Fin p, Fin q => match Qccompare p q with Lt => true | _ => false end
  end.

(** [a > b] *)
Definition num_gt (a b : jsnum) : bool := num_lt b a.

(** [a <= b] *)
Definition num_le (a b : jsnum) : bool :=
  match a, b with
  | NaN, _ | _, NaN => false
  | _, _ => negb (num_lt b a)
  end.

(** [isNaN(n)] for a number [n]. *)
Definition isNaN (n : jsnum) : bool :=
  match n with NaN => true | _ => false end.

(** [!!n] for a number. *)
Definition num_truthy (n : jsnum) : bool :=
  match n with
  | NaN => false
  | Inf _ => true
  | Fin q => negb (Qc_eq_bool q (Q2Qc 0))
  end.

(** [!!s] for a string. *)
Definition str_truthy (s : string) : bool :=
  match s with EmptyString => false | _ => true end.

(** [!!v] (ToBoolean). *)
Definition truthy (v : jsval) : bool :=
  match v with
  | JUndefined | JNull => false
  | JBool b => b
  | JNum n => num_truthy n
  | JStr s => str_truthy s
  | JArr _ | JObj _ => true
  end.

(** [a === b].  Exact on primitives.  On arrays and objects JavaScript
    compares references, which this tree model does not track: the model
    answers [false], which is what JavaScript answers for two distinct
    allocations. *)
Definition strict_eq (a b : jsval) : bool :=
  match a, b with
  | JUndefined, JUndefined => true
  | JNull, JNull => true
  | JBool x, JBool y => Bool.eqb x y
  | JNum x, JNum y => num_eq x y
  | JStr x, JStr y => String.eqb x y
  | _, _ => false
  end.

(** [Array.isArray(v)] *)
Definition isArray (v : jsval) : bool :=
  match v with JArr _ => true | _ => false end.

(** The elements of an array value (used only after [isArray] passed). *)
Definition elems_of (v : jsval) : list jsval :=
  match v with JArr l => l | _ => [] end.

Fixpoint lookup (k : string) (ps : list (string * jsval)) : jsval :=
  match ps with
  | [] => JUndefined
  | (k', v) :: ps' => if String.eqb k k' then v else lookup k ps'
  end.

(** [String.prototype.toLowerCase] on strings of ASCII characters: the
    letters [A] to [Z] are the only ones it changes there.  On other
    characters [toLowerCase] follows Unicode and [lower] does not; the
    statements that compare names assume ASCII names ([is_ascii] below). *)
Definition lower_ascii (c : ascii) : ascii :=
  let n := nat_of_ascii c in
  if (65 <=? n)%nat && (n <=? 90)%nat then ascii_of_nat (n + 32) else c.

Fixpoint lower (s : string) : string :=
  match s with
  | EmptyString => EmptyString
  | String c s' => String (lower_ascii c) (lower s')
  end.

(** What [JSON.parse(JSON.stringify(v))] returns for a value [v] built from
    the constructors above: a property whose value is [undefined] is left
    out, [undefined] inside an array and the numbers [NaN] and [Infinity]
    become [null]. *)
Fixpoint JSON_roundtrip (v : jsval) : jsval :=
  match v with
  | JUndefined => JNull
  | JNum NaN | JNum (Inf _) => JNull
  | JArr l => JArr (map JSON_roundtrip l)
  | JObj ps =>
      JObj ((fix props (ps : list (string * jsval)) : list (string * jsval) :=
               match ps with
               | [] => []
               | (k, JUndefined) :: ps' => props ps'
               | (k, x) :: ps' => (k, JSON_roundtrip x) :: props ps'
               end) ps)
  | _ => v
  end.

End JS.
Import JS.

(** ** The records of the three tables and of the option buffer *)

(** [{ id, name }] *)
Record Category : Type := mkCategory {
  cat_id : jsval;
  cat_name : jsval
}.

(** [{ id, categoryId, name, description, price, image }] *)
Record Product : Type := mkProduct {
  prod_id : jsval;
  prod_categoryId : jsval;
  prod_name : jsval;
  prod_description : jsval;
  prod_price : jsval;
  prod_image : jsval
}.

(** [{ id, label, value }] *)
Record MenuOption : Type := mkOption {
  opt_id : jsval;
  opt_label : jsval;
  opt_value : jsval
}.

(** [{ id, productId, name, min, max, type, position, options }] *)
Record Modifier : Type := mkModifier {
  mod_id : jsval;
  mod_productId : jsval;
  mod_name : jsval;
  mod_min : jsval;
  mod_max : jsval;
  mod_type : jsval;
  mod_position : jsval;
  mod_options : list MenuOption
}.

(** The instance's data fields (constructor, lines 5-14). *)
Record MenuBuilder : Type := mkMenuBuilder {
  categories : list Category;
  products : list Product;
  modifiers : list Modifier;
  currentOptions : list MenuOption
}.

Definition empty_store : MenuBuilder :=
  {| categories := []; products := []; modifiers := []; currentOptions := [] |}.

(** ** Toasts *)

Inductive toast_type : Type := success | error.

(** The messages of [showToast] in the handlers below, one constructor per
    literal of the source. *)
Inductive message : Type :=
| Msg_category_name_missing     (* 'Por favor ingresa un nombre para la categoria' *)
| Msg_category_exists           (* 'Ya existe una categoria con ese nombre' *)
| Msg_category_added            (* 'Categoria agregada exitosamente' *)
| Msg_category_deleted          (* 'Categoria eliminada' *)
| Msg_select_category           (* 'Por favor selecciona una categoria' *)
| Msg_product_name_missing      (* 'Por favor ingresa un nombre para el producto' *)
| Msg_description_missing       (* 'Por favor ingresa una descripcion' *)
| Msg_price_invalid             (* 'Por favor ingresa un precio valido' *)
| Msg_product_added             (* 'Producto agregado exitosamente' *)
| Msg_product_deleted           (* 'Producto eliminado' *)
| Msg_product_name_empty        (* 'El nombre del producto no puede estar vacio' *)
| Msg_description_empty         (* 'La descripcion del producto no puede estar vacia' *)
| Msg_price_not_positive        (* 'Por favor ingresa un precio valido mayor a cero' *)
| Msg_product_exists            (* 'Ya existe un producto llamado ... en esta categoria' *)
| Msg_option_label_missing      (* 'Por favor ingresa una etiqueta para la opcion' *)
| Msg_option_added              (* 'Opcion agregada' *)
| Msg_select_product            (* 'Por favor selecciona un producto' *)
| Msg_modifier_name_missing     (* 'Por favor ingresa un nombre para el modificador' *)
| Msg_min_gt_max                (* 'El minimo no puede ser mayor que el maximo' *)
| Msg_no_options                (* 'Por favor agrega al menos una opcion' *)
| Msg_modifier_saved            (* 'Modificador guardado exitosamente' *)
| Msg_modifier_deleted          (* 'Modificador eliminado' *)
| Msg_all_cleared               (* 'Todos los datos han sido eliminados' *)
| Msg_import_empty              (* 'Por favor ingresa un JSON valido' *)
| Msg_import_format             (* 'El formato del JSON no es valido' *)
| Msg_import_done               (* 'Datos importados exitosamente' *)
| Msg_import_invalid.           (* 'Error al importar: JSON invalido' *)

(** [showToast(message, type)] *)
Record toast : Type := showToast {
  toast_message : message;
  toast_kind : toast_type
}.

(** ** The monad of the handlers: state, the clock, exceptions *)

Inductive exn : Type := TypeError | SyntaxError.

Inductive completion (A : Type) : Type :=
| Normal (a : A)
| Throw (e : exn).
Arguments Normal {A} a.
Arguments Throw {A} e.

(** The instance, and the clock behind [Date.now()]: the [k]-th reading
    returns [clock k]. *)
Record world : Type := mkWorld {
  self : MenuBuilder;
  clock : nat -> Z;
  reads : nat
}.

Definition M (A : Type) : Type := world -> completion A * world.

Definition ret {A} (a : A) : M A := fun w => (Normal a, w).

Definition bind {A B} (m : M A) (k : A -> M B) : M B :=
  fun w =>
    match m w with
    | (Normal a, w') => k a w'
    | (Throw e, w') => (Throw e, w')
    end.

Definition throw {A} (e : exn) : M A := fun w => (Throw e, w).

(** [try { body } catch (error) { handler }]: what [body] wrote before it
    threw stays written. *)
Definition try_catch {A} (body : M A) (handler : exn -> M A) : M A :=
  fun w =>
    match body w with
    | (Normal a, w') => (Normal a, w')
    | (Throw e, w') => handler e w'
    end.

Declare Scope js_scope.
Delimit Scope js_scope with js.
Notation "x <- c1 ;; c2" := (bind c1 (fun x => c2))
  (at level 100, c1 at next level, right associativity) : js_scope.
Notation "c1 ;; c2" := (bind c1 (fun _ => c2))
  (at level 100, right associativity) : js_scope.
Local Open Scope js_scope.

(** [this] *)
Definition this : M MenuBuilder := fun w => (Normal (self w), w).

Definition modify (f : MenuBuilder -> MenuBuilder) : M unit :=
  fun w => (Normal tt, {| self := f (self w); clock := clock w; reads := reads w |}).

Definition set_categories (l : list Category) : M unit :=
  modify (fun s => {| categories := l; products := products s;
                      modifiers := modifiers s; currentOptions := currentOptions s |}).

Definition set_products (l : list Product) : M unit :=
  modify (fun s => {| categories := categories s; products := l;
                      modifiers := modifiers s; currentOptions := currentOptions s |}).

Definition set_modifiers (l : list Modifier) : M unit :=
  modify (fun s => {| categories := categories s; products := products s;
                      modifiers := l; currentOptions := currentOptions s |}).

Definition set_currentOptions (l : list MenuOption) : M unit :=
  modify (fun s => {| categories := categories s; products := products s;
                      modifiers := modifiers s; currentOptions := l |}).

(** [this.categories.push(c)] and its siblings *)
Definition push_category (c : Category) : M unit :=
  s <- this ;; set_categories (categories s ++ [c]).

Definition push_product (p : Product) : M unit :=
  s <- this ;; set_products (products s ++ [p]).

Definition push_modifier (m : Modifier) : M unit :=
  s <- this ;; set_modifiers (modifiers s ++ [m]).

Definition push_option (o : MenuOption) : M unit :=
  s <- this ;; set_currentOptions (currentOptions s ++ [o]).

(** [Date.now()] *)
Definition Date_now : M jsval :=
  fun w => (Normal (JNum (int (clock w (reads w)))),
            {| self := self w; clock := clock w; reads := S (reads w) |}).

(** [v.k] for the property names the handlers read ([menu], [id], [name],
    [products], ...): a [TypeError] on [null] and [undefined], the stored
    value on an object, [undefined] on everything else. *)
Definition prop (v : jsval) (k : string) : M jsval :=
  match v with
  | JUndefined | JNull => throw TypeError
  | JObj ps => ret (lookup k ps)
  | _ => ret JUndefined
  end.

(** [v || d], with [d] evaluated only when [v] is falsy. *)
Definition or_else (v : jsval) (d : M jsval) : M jsval :=
  if truthy v then ret v else d.

(** [v.toLowerCase()]: a [TypeError] unless [v] is a string. *)
Definition toLowerCase (v : jsval) : M string :=
  match v with
  | JStr s => ret (lower s)
  | _ => throw TypeError
  end.

(** [l.forEach(f)] *)
Fixpoint forEach {A} (l : list A) (f : A -> M unit) : M unit :=
  match l with
  | [] => ret tt
  | x :: l' => f x ;; forEach l' f
  end.

(** [l.map(f)] for a callback with effects *)
Fixpoint mapM {A B} (l : list A) (f : A -> M B) : M (list B) :=
  match l with
  | [] => ret []
  | x :: l' => y <- f x ;; ys <- mapM l' f ;; ret (y :: ys)
  end.

(** [l.some(f)] for a callback that may throw; stops at the first hit. *)
Fixpoint someM {A} (l : list A) (f : A -> M bool) : M bool :=
  match l with
  | [] => ret false
  | x :: l' => b <- f x ;; if b then ret true else someM l' f
  end.

(** ** Categories (lines 163-244) *)

(** [addCategory()]; [name] is [nameInput?.value.trim()]. *)
Definition addCategory (name : string) : M toast :=
  if negb (str_truthy name) then
    ret (showToast Msg_category_name_missing error)
  else
    s <- this ;;
    dup <- someM (categories s)
             (fun cat => l <- toLowerCase (cat_name cat) ;;
                         ret (String.eqb l (lower name))) ;;
    if dup then
      ret (showToast Msg_category_exists error)
    else
      now <- Date_now ;;
      push_category {| cat_id := now; cat_name := JStr name |} ;;
      ret (showToast Msg_category_added success).

(** [deleteCategory(id)].  The third filter reads [this.products] after the
    second statement has replaced it. *)
Definition deleteCategory (id : jsval) : M toast :=
  s <- this ;;
  set_categories (filter (fun cat => negb (strict_eq (cat_id cat) id)) (categories s)) ;;
  s <- this ;;
  set_products (filter (fun prod => negb (strict_eq (prod_categoryId prod) id)) (products s)) ;;
  s <- this ;;
  set_modifiers
    (filter (fun mod_ =>
               negb (existsb (fun prod => strict_eq (prod_id prod) (mod_productId mod_))
                             (products s)))
            (modifiers s)) ;;
  ret (showToast Msg_category_deleted success).

(** ** Products (lines 373-422, 490-497, 541-612) *)

(** The constants read from the product form. *)
Record product_form : Type := mkProductForm {
  pf_categoryId : jsnum;     (* parseInt(...) *)
  pf_name : string;          (* value.trim() *)
  pf_description : string;   (* value.trim() *)
  pf_price : jsnum;          (* parseFloat(...) *)
  pf_image : string          (* value.trim() *)
}.

(** [addProduct()] *)
Definition addProduct (f : product_form) : M toast :=
  if negb (num_truthy (pf_categoryId f)) then
    ret (showToast Msg_select_category error)
  else if negb (str_truthy (pf_name f)) then
    ret (showToast Msg_product_name_missing error)
  else if negb (str_truthy (pf_description f)) then
    ret (showToast Msg_description_missing error)
  else if isNaN (pf_price f) || num_lt (pf_price f) (int 0) then
    ret (showToast Msg_price_invalid error)
  else
    now <- Date_now ;;
    push_product {| prod_id := now;
                    prod_categoryId := JNum (pf_categoryId f);
                    prod_name := JStr (pf_name f);
                    prod_description := JStr (pf_description f);
                    prod_price := JNum (pf_price f);
                    prod_image := JStr (pf_image f) |} ;;
    ret (showToast Msg_product_added success).

(** [deleteProduct(id)] *)
Definition deleteProduct (id : jsval) : M toast :=
  s <- this ;;
  set_products (filter (fun prod => negb (strict_eq (prod_id prod) id)) (products s)) ;;
  s <- this ;;
  set_modifiers (filter (fun mod_ => negb (strict_eq (mod_productId mod_) id)) (modifiers s)) ;;
  ret (showToast Msg_product_deleted success).

(** The product that [find(p => p.id === id)] returns is updated in place:
    the first record of the table with that id. *)
Fixpoint assign_first (id : jsval) (g : Product -> Product) (l : list Product)
  : list Product :=
  match l with
  | [] => []
  | p :: l' => if strict_eq (prod_id p) id then g p :: l' else p :: assign_first id g l'
  end.

(** The handler that [editProduct(id)] installs as the button's [onclick]
    (lines 541-612), run on the store that [editProduct] saw (the product
    with that id is in the table, and the handler assigns to it).  Its last
    modelled statement calls [this.renderPreview], which the class does not
    define.  On a click the listener of line 82 ([addProduct]) runs before
    this handler: see [click_update_product] below. *)
Definition updateProduct (id : jsval) (f : product_form) : M toast :=
  if negb (num_truthy (pf_categoryId f)) then
    ret (showToast Msg_select_category error)
  else if negb (str_truthy (pf_name f)) then
    ret (showToast Msg_product_name_empty error)
  else if negb (str_truthy (pf_description f)) then
    ret (showToast Msg_description_empty error)
  else if isNaN (pf_price f) || num_le (pf_price f) (int 0) then
    ret (showToast Msg_price_not_positive error)
  else
    s <- this ;;
    duplicateProduct <-
      someM (products s)
        (fun p =>
           if negb (strict_eq (prod_id p) id) then
             l <- toLowerCase (prod_name p) ;;
             ret (String.eqb l (lower (pf_name f))
                  && strict_eq (prod_categoryId p) (JNum (pf_categoryId f)))
           else ret false) ;;
    if duplicateProduct then
      ret (showToast Msg_product_exists error)
    else
      set_products
        (assign_first id
           (fun p => {| prod_id := prod_id p;
                        prod_categoryId := JNum (pf_categoryId f);
                        prod_name := JStr (pf_name f);
                        prod_description := JStr (pf_description f);
                        prod_price := JNum (pf_price f);
                        prod_image := if str_truthy (pf_image f)
                                      then JStr (pf_image f) else JNull |})
           (products s)) ;;
      throw TypeError.

(** ** Modifiers and the option buffer (lines 659-775, 850-855) *)

(** [addOption()]; [label] is [value.trim()], [raw] is [parseFloat(...)]. *)
Definition addOption (label : string) (raw : jsnum) : M toast :=
  let value := if num_truthy raw then raw else int 0 in
  if negb (str_truthy label) then
    ret (showToast Msg_option_label_missing error)
  else
    now <- Date_now ;;
    push_option {| opt_id := now; opt_label := JStr label; opt_value := JNum value |} ;;
    ret (showToast Msg_option_added success).

(** [removeOption(id)]; it shows no toast. *)
Definition removeOption (id : jsval) : M unit :=
  s <- this ;;
  set_currentOptions (filter (fun opt => negb (strict_eq (opt_id opt) id)) (currentOptions s)).

(** The constants read from the modifier form, each but [name] a
    [parseInt(...)]. *)
Record modifier_form : Type := mkModifierForm {
  mf_productId : jsnum;
  mf_name : string;
  mf_min : jsnum;
  mf_max : jsnum;
  mf_type : jsnum;
  mf_position : jsnum
}.

(** [saveModifier()].  Lines 760-768, which reset the form before the buffer
    is emptied, write to elements of the page only. *)
Definition saveModifier (f : modifier_form) : M toast :=
  if negb (num_truthy (mf_productId f)) then
    ret (showToast Msg_select_product error)
  else if negb (str_truthy (mf_name f)) then
    ret (showToast Msg_modifier_name_missing error)
  else if num_gt (mf_min f) (mf_max f) then
    ret (showToast Msg_min_gt_max error)
  else
    s <- this ;;
    if (List.length (currentOptions s) =? 0)%nat then
      ret (showToast Msg_no_options error)
    else
      now <- Date_now ;;
      push_modifier {| mod_id := now;
                       mod_productId := JNum (mf_productId f);
                       mod_name := JStr (mf_name f);
                       mod_min := JNum (mf_min f);
                       mod_max := JNum (mf_max f);
                       mod_type := JNum (mf_type f);
                       mod_position := JNum (mf_position f);
                       mod_options := currentOptions s |} ;;
      set_currentOptions [] ;;
      ret (showToast Msg_modifier_saved success).

(** [deleteModifier(id)] *)
Definition deleteModifier (id : jsval) : M toast :=
  s <- this ;;
  set_modifiers (filter (fun mod_ => negb (strict_eq (mod_id mod_) id)) (modifiers s)) ;;
  ret (showToast Msg_modifier_deleted success).

(** [clearAllData()]; [confirmed] is the answer to the [confirm] dialog.
    Nothing is shown when the user declines. *)
Definition clearAllData (confirmed : bool) : M (option toast) :=
  if confirmed then
    set_categories [] ;;
    set_products [] ;;
    set_modifiers [] ;;
    set_currentOptions [] ;;
    ret (Some (showToast Msg_all_cleared success))
  else ret None.

(** ** Export (lines 1161-1204) *)

Definition export_option (option : MenuOption) : jsval :=
  JObj [("id", opt_id option);
        ("label", opt_label option);
        ("value", opt_value option)].

Definition export_modifier (modifier : Modifier) : jsval :=
  JObj [("id", mod_id modifier);
        ("name", mod_name modifier);
        ("min", mod_min modifier);
        ("max", mod_max modifier);
        ("type", mod_type modifier);
        ("position", mod_position modifier);
        ("options", JArr (map export_option (mod_options modifier)))].

Definition export_product (s : MenuBuilder) (product : Product) : jsval :=
  JObj [("id", prod_id product);
        ("name", prod_name product);
        ("description", prod_description product);
        ("price", prod_price product);
        ("image", if truthy (prod_image product) then prod_image product else JNull);
        ("modifiers",
         JArr (map export_modifier
                 (filter (fun mod_ => strict_eq (mod_productId mod_) (prod_id product))
                         (modifiers s))))].

(** The callback of [this.categories.map]: [null] for a category without
    products. *)
Definition export_category (s : MenuBuilder) (category : Category) : jsval :=
  let categoryProducts :=
    filter (fun prod => strict_eq (prod_categoryId prod) (cat_id category)) (products s) in
  if (List.length categoryProducts =? 0)%nat then JNull
  else JObj [("id", cat_id category);
             ("name", cat_name category);
             ("products", JArr (map (export_product s) categoryProducts))].

Definition count (A : Type) (l : list A) : jsval :=
  JNum (int (Z.of_nat (List.length l))).
Arguments count {A} l.

(** [generateJSON()]; [created] is [new Date().toISOString()]. *)
Definition generateJSON (created : string) (s : MenuBuilder) : jsval :=
  let menu := filter truthy (map (export_category s) (categories s)) in
  JObj [("menu", JArr menu);
        ("metadata",
         JObj [("created", JStr created);
               ("totalCategories", count (categories s));
               ("totalProducts", count (products s));
               ("totalModifiers", count (modifiers s))])].

(** ** Import (lines 1262-1351) *)

(** The content of the import text area after [trim()], by what
    [JSON.parse] makes of it. *)
Inductive import_field : Type :=
| Blank
| Malformed
| Document (jsonData : jsval).

Definition JSON_parse (field : import_field) : M jsval :=
  match field with
  | Document jsonData => ret jsonData
  | _ => throw SyntaxError
  end.

(** The callback of [modifier.options.map] *)
Definition import_option (option : jsval) : M MenuOption :=
  raw_id <- prop option "id" ;;
  id <- or_else raw_id Date_now ;;
  label <- prop option "label" ;;
  raw_value <- prop option "value" ;;
  value <- or_else raw_value (ret (JNum (int 0))) ;;
  ret {| opt_id := id; opt_label := label; opt_value := value |}.

(** The callback of [product.modifiers.forEach] *)
Definition import_modifier (product modifier : jsval) : M unit :=
  raw_id <- prop modifier "id" ;;
  id <- or_else raw_id Date_now ;;
  productId <- prop product "id" ;;
  name <- prop modifier "name" ;;
  raw_min <- prop modifier "min" ;;
  min <- or_else raw_min (ret (JNum (int 0))) ;;
  raw_max <- prop modifier "max" ;;
  max <- or_else raw_max (ret (JNum (int 1))) ;;
  raw_type <- prop modifier "type" ;;
  type <- or_else raw_type (ret (JNum (int 1))) ;;
  raw_position <- prop modifier "position" ;;
  position <- or_else raw_position (ret (JNum (int 1))) ;;
  options <- prop modifier "options" ;;
  imported <- (if truthy options && isArray options
               then mapM (elems_of options) import_option
               else ret []) ;;
  push_modifier {| mod_id := id; mod_productId := productId; mod_name := name;
                   mod_min := min; mod_max := max; mod_type := type;
                   mod_position := position; mod_options := imported |}.

(** The callback of [category.products.forEach] *)
Definition import_product (category product : jsval) : M unit :=
  raw_id <- prop product "id" ;;
  id <- or_else raw_id Date_now ;;
  categoryId <- prop category "id" ;;
  name <- prop product "name" ;;
  raw_description <- prop product "description" ;;
  description <- or_else raw_description (ret (JStr "")) ;;
  raw_price <- prop product "price" ;;
  price <- or_else raw_price (ret (JNum (int 0))) ;;
  raw_image <- prop product "image" ;;
  image <- or_else raw_image (ret (JStr "")) ;;
  push_product {| prod_id := id; prod_categoryId := categoryId; prod_name := name;
                  prod_description := description; prod_price := price;
                  prod_image := image |} ;;
  modifiers_ <- prop product "modifiers" ;;
  if truthy modifiers_ && isArray modifiers_
  then forEach (elems_of modifiers_) (import_modifier product)
  else ret tt.

(** The callback of [jsonData.menu.forEach] *)
Definition import_category (category : jsval) : M unit :=
  raw_id <- prop category "id" ;;
  id <- or_else raw_id Date_now ;;
  name <- prop category "name" ;;
  push_category {| cat_id := id; cat_name := name |} ;;
  products_ <- prop category "products" ;;
  if truthy products_ && isArray products_
  then forEach (elems_of products_) (import_product category)
  else ret tt.

(** [importJSON()].  The rendering calls between the loop and the last toast
    (lines 1334-1338) are left out: when one of them throws, the [catch]
    clause shows the error toast over the tables that the loop has filled. *)
Definition importJSON (field : import_field) : M toast :=
  match field with
  | Blank => ret (showToast Msg_import_empty error)
  | _ =>
      try_catch
        (jsonData <- JSON_parse field ;;
         menu <- prop jsonData "menu" ;;
         if negb (truthy menu) || negb (isArray menu) then
           ret (showToast Msg_import_format error)
         else
           set_categories [] ;;
           set_products [] ;;
           set_modifiers [] ;;
           forEach (elems_of menu) import_category ;;
           ret (showToast Msg_import_done success))
        (fun _ => ret (showToast Msg_import_invalid error))
  end.

(** ** Running a handler, reading the result *)

(** Running a handler on a store, with a clock that always shows [t]. *)
Definition at_time (t : Z) (s : MenuBuilder) : world :=
  {| self := s; clock := fun _ => t; reads := 0 |}.

Definition run {A} (m : M A) (w : world) : completion A * MenuBuilder :=
  let (r, w') := m w in (r, self w').

(** The store a handler leaves behind, whether it returned or threw. *)
Definition after {A} (m : M A) (w : world) : MenuBuilder := self (snd (m w)).

Definition num (z : Z) : jsval := JNum (int z).

(** [v.k] on a value known to be an object (no exception involved). *)
Definition field (v : jsval) (k : string) : jsval :=
  match v with JObj ps => lookup k ps | _ => JUndefined end.

Definition with_categories (s : MenuBuilder) (l : list Category) : MenuBuilder :=
  {| categories := l; products := products s;
     modifiers := modifiers s; currentOptions := currentOptions s |}.

Definition with_products (s : MenuBuilder) (l : list Product) : MenuBuilder :=
  {| categories := categories s; products := l;
     modifiers := modifiers s; currentOptions := currentOptions s |}.

Definition with_modifiers (s : MenuBuilder) (l : list Modifier) : MenuBuilder :=
  {| categories := categories s; products := products s;
     modifiers := l; currentOptions := currentOptions s |}.

Definition with_currentOptions (s : MenuBuilder) (l : list MenuOption) : MenuBuilder :=
  {| categories := categories s; products := products s;
     modifiers := modifiers s; currentOptions := l |}.

(** The world [w] with its three tables replaced. *)
Definition tables (w : world) (cs : list Category) (ps : list Product)
           (ms : list Modifier) : world :=
  {| self := {| categories := cs; products := ps; modifiers := ms;
                currentOptions := currentOptions (self w) |};
     clock := clock w; reads := reads w |}.

(** ** Referential integrity *)

(** The lookups of [updateProductsTable] and [updateModifiersTable]:
    [categories.find(cat => cat.id === product.categoryId)] and
    [products.find(prod => prod.id === modifier.productId)]. *)
Definition category_live (cats : list Category) (p : Product) : bool :=
  existsb (fun cat => strict_eq (cat_id cat) (prod_categoryId p)) cats.

Definition product_live (prods : list Product) (m : Modifier) : bool :=
  existsb (fun prod => strict_eq (prod_id prod) (mod_productId m)) prods.

Definition products_refer (s : MenuBuilder) : bool :=
  forallb (category_live (categories s)) (products s).

Definition modifiers_refer (s : MenuBuilder) : bool :=
  forallb (product_live (products s)) (modifiers s).

Definition referential_integrity (s : MenuBuilder) : bool :=
  products_refer s && modifiers_refer s.

(** The form names a category, or a product, that is in its table. *)
Definition references_category (s : MenuBuilder) (f : product_form) : bool :=
  existsb (fun cat => strict_eq (cat_id cat) (JNum (pf_categoryId f))) (categories s).

Definition references_product (s : MenuBuilder) (f : modifier_form) : bool :=
  existsb (fun prod => strict_eq (prod_id prod) (JNum (mf_productId f))) (products s).

(** An id that import keeps as it is and that can be found again: a truthy
    primitive. *)
Definition id_usable (v : jsval) : bool := truthy v && strict_eq v v.

(** Every category entry of the document, and every product entry, carries
    such an id. *)
Definition product_has_id (product : jsval) : bool :=
  id_usable (field product "id").

Definition category_has_ids (category : jsval) : bool :=
  id_usable (field category "id")
  && forallb product_has_id (elems_of (field category "products")).

Definition document_has_ids (content : import_field) : bool :=
  match content with
  | Document jsonData => forallb category_has_ids (elems_of (field jsonData "menu"))
  | _ => true
  end.

(** ** The export as the specification words it

    "for each Category (in table order) that has at least one Product, emit
    [{id, name, products}]": select first, then project. *)

Definition has_products (s : MenuBuilder) (category : Category) : bool :=
  existsb (fun prod => strict_eq (prod_categoryId prod) (cat_id category)) (products s).

Definition products_of (s : MenuBuilder) (category : Category) : list Product :=
  filter (fun prod => strict_eq (prod_categoryId prod) (cat_id category)) (products s).

Definition modifiers_of (s : MenuBuilder) (product : Product) : list Modifier :=
  filter (fun mod_ => strict_eq (mod_productId mod_) (prod_id product)) (modifiers s).

Definition spec_modifier_entry (modifier : Modifier) : jsval :=
  JObj [("id", mod_id modifier); ("name", mod_name modifier);
        ("min", mod_min modifier); ("max", mod_max modifier);
        ("type", mod_type modifier); ("position", mod_position modifier);
        ("options",
         JArr (map (fun o => JObj [("id", opt_id o); ("label", opt_label o);
                                   ("value", opt_value o)])
                   (mod_options modifier)))].

Definition spec_product_entry (s : MenuBuilder) (product : Product) : jsval :=
  JObj [("id", prod_id product); ("name", prod_name product);
        ("description", prod_description product); ("price", prod_price product);
        ("image", if truthy (prod_image product) then prod_image product else JNull);
        ("modifiers", JArr (map spec_modifier_entry (modifiers_of s product)))].

Definition spec_category_entry (s : MenuBuilder) (category : Category) : jsval :=
  JObj [("id", cat_id category); ("name", cat_name category);
        ("products", JArr (map (spec_product_entry s) (products_of s category)))].

Definition spec_menu (s : MenuBuilder) : list jsval :=
  map (spec_category_entry s) (filter (has_products s) (categories s)).

(** The number of products, and of modifiers, nested in a menu array. *)
Definition nested_products (menu : list jsval) : nat :=
  list_sum (map (fun entry => List.length (elems_of (field entry "products"))) menu).

Definition nested_modifiers (menu : list jsval) : nat :=
  list_sum (map (fun entry =>
                   list_sum (map (fun p => List.length (elems_of (field p "modifiers")))
                                 (elems_of (field entry "products"))))
                menu).

(** ** Export followed by import *)

(** The properties that [JSON.stringify] writes for an object. *)
Fixpoint strip (ps : list (string * jsval)) : list (string * jsval) :=
  match ps with
  | [] => []
  | (k, JUndefined) :: ps' => strip ps'
  | (k, x) :: ps' => (k, JSON_roundtrip x) :: strip ps'
  end.

(** What reading a property gives after [JSON.parse(JSON.stringify(...))]
    when it held [v] before. *)
Definition reread (v : jsval) : jsval :=
  match v with JUndefined => JUndefined | _ => JSON_roundtrip v end.

(** An object has each key once. *)
Fixpoint distinct_keys (ps : list (string * jsval)) : bool :=
  match ps with
  | [] => true
  | (k, _) :: ps' =>
      negb (existsb (fun kv => String.eqb k (fst kv)) ps') && distinct_keys ps'
  end.

(** Values that JSON text carries unchanged: [null], booleans, strings,
    finite numbers; and [undefined], whose property is left out and read
    back as [undefined]. *)
Definition plain (v : jsval) : bool :=
  match v with
  | JUndefined | JNull | JBool _ | JStr _ | JNum (Fin _) => true
  | _ => false
  end.

(** An id that export, JSON and [id || Date.now()] hand back. *)
Definition id_kept (v : jsval) : bool := plain v && truthy v.

(** A field that export, JSON and [field || d] hand back. *)
Definition survives (d v : jsval) : bool := plain v && (truthy v || strict_eq v d).

Definition option_survives (o : MenuOption) : bool :=
  id_kept (opt_id o) && plain (opt_label o) && survives (num 0) (opt_value o).

Definition modifier_survives (m : Modifier) : bool :=
  id_kept (mod_id m) && plain (mod_name m)
  && survives (num 0) (mod_min m) && survives (num 1) (mod_max m)
  && survives (num 1) (mod_type m) && survives (num 1) (mod_position m)
  && forallb option_survives (mod_options m).

Definition product_survives (p : Product) : bool :=
  id_kept (prod_id p) && plain (prod_name p)
  && survives (JStr "") (prod_description p) && survives (num 0) (prod_price p)
  && survives (JStr "") (prod_image p).

Definition category_survives (c : Category) : bool :=
  id_kept (cat_id c) && plain (cat_name c).

Definition fields_survive (s : MenuBuilder) : bool :=
  forallb category_survives (categories s)
  && forallb product_survives (products s)
  && forallb modifier_survives (modifiers s).

(** The hypothesis of the round trip: no category is empty. *)
Definition every_category_has_products (s : MenuBuilder) : bool :=
  forallb (has_products s) (categories s).

(** The tables are laid out the way the export nests them: the products
    table lists the products category by category in the order of the
    categories table, the modifiers table lists the modifiers product by
    product in the order of the products table. *)
Definition products_grouped (s : MenuBuilder) : Prop :=
  products s = flat_map (products_of s) (categories s).

Definition modifiers_grouped (s : MenuBuilder) : Prop :=
  modifiers s = flat_map (modifiers_of s) (products s).

(** [importJSON] applied to the text of [generateJSON()]. *)
Definition reimport (created : string) (s : MenuBuilder) : M toast :=
  importJSON (Document (JSON_roundtrip (generateJSON created s))).

(** ** Hoare triples over the store

    [triple P m Q E]: started on a store that satisfies [P], the computation
    [m] either returns a value [a] on a store that satisfies [Q a], or throws
    on a store that satisfies [E]. *)

Definition triple {A} (P : MenuBuilder -> Prop) (m : M A)
           (Q : A -> MenuBuilder -> Prop) (E : MenuBuilder -> Prop) : Prop :=
  forall w, P (self w) ->
            match m w with
            | (Normal a, w') => Q a (self w')
            | (Throw _, w') => E (self w')
            end.

(** [m] keeps [I] whatever its outcome. *)
Definition keeps {A} (I : MenuBuilder -> Prop) (m : M A) : Prop :=
  triple I m (fun _ => I) I.

Definition RI (s : MenuBuilder) : Prop := referential_integrity s = true.

Definition has_category (cid : jsval) (s : MenuBuilder) : Prop :=
  existsb (fun cat => strict_eq (cat_id cat) cid) (categories s) = true.

Definition has_product (pid : jsval) (s : MenuBuilder) : Prop :=
  existsb (fun prod => strict_eq (prod_id prod) pid) (products s) = true.

(** The invariant inside the loops of [importJSON]: the tables are
    consistent and already hold the enclosing category and product. *)
Definition linked (cid pid : jsval) (s : MenuBuilder) : Prop :=
  RI s /\ has_category cid s /\ has_product pid s.

Definition rooted (cid : jsval) (s : MenuBuilder) : Prop :=
  RI s /\ has_category cid s.

(** ** The checks of the two forms *)

(** The four field checks of [addProduct]. *)
Definition form_passes (f : product_form) : bool :=
  num_truthy (pf_categoryId f) && str_truthy (pf_name f)
  && str_truthy (pf_description f)
  && negb (isNaN (pf_price f) || num_lt (pf_price f) (int 0)).

Definition product_of_form (id : jsval) (f : product_form) : Product :=
  {| prod_id := id;
     prod_categoryId := JNum (pf_categoryId f);
     prod_name := JStr (pf_name f);
     prod_description := JStr (pf_description f);
     prod_price := JNum (pf_price f);
     prod_image := JStr (pf_image f) |}.

(** The messages of the four checks of [saveModifier]. *)
Definition validation_messages : list message :=
  [Msg_select_product; Msg_modifier_name_missing; Msg_min_gt_max; Msg_no_options].

(** ** Sample stores, forms and documents *)

Definition category (i : Z) (n : string) : Category :=
  {| cat_id := num i; cat_name := JStr n |}.

Definition product (i c : Z) (n : string) : Product :=
  {| prod_id := num i; prod_categoryId := num c; prod_name := JStr n;
     prod_description := JStr "plain"; prod_price := num 3; prod_image := JStr "" |}.

Definition option_ (i : Z) (l : string) : MenuOption :=
  {| opt_id := num i; opt_label := JStr l; opt_value := num 0 |}.

Definition modifier (i p : Z) (n : string) (mn mx : Z) : Modifier :=
  {| mod_id := num i; mod_productId := num p; mod_name := JStr n;
     mod_min := num mn; mod_max := num mx; mod_type := num 1; mod_position := num 1;
     mod_options := [option_ (i + 1) "Mild"] |}.

(** Two categories, one product each, one modifier per product. *)
Definition two_categories : MenuBuilder :=
  {| categories := [category 1 "Food"; category 2 "Drinks"];
     products := [product 10 1 "Taco"; product 20 2 "Cola"];
     modifiers := [modifier 100 10 "Spice" 0 1; modifier 200 20 "Size" 0 1];
     currentOptions := [] |}.

(** One category holding "Cola" and "Fanta". *)
Definition drinks : MenuBuilder :=
  {| categories := [category 2 "Drinks"];
     products := [product 20 2 "Cola"; product 21 2 "Fanta"];
     modifiers := [];
     currentOptions := [] |}.

Definition cola_again : product_form :=
  {| pf_categoryId := int 2; pf_name := "COLA"; pf_description := "Cold soda";
     pf_price := int 2; pf_image := "" |}.

(** A product and its modifier whose category is not in the table. *)
Definition orphans : MenuBuilder :=
  {| categories := [];
     products := [product 10 1 "Taco"];
     modifiers := [modifier 100 10 "Spice" 0 1];
     currentOptions := [] |}.

(** A category without products. *)
Definition lonely_category : MenuBuilder :=
  {| categories := [category 1 "Food"]; products := []; modifiers := [];
     currentOptions := [] |}.

(** The products table lists a product of the first category after one of
    the second. *)
Definition interleaved : MenuBuilder :=
  {| categories := [category 1 "Food"; category 2 "Drinks"];
     products := [product 10 1 "Taco"; product 20 2 "Cola"; product 11 1 "Burrito"];
     modifiers := [];
     currentOptions := [] |}.

(** A store with one modifier whose max is 0. *)
Definition zero_max : MenuBuilder :=
  {| categories := [category 1 "Food"];
     products := [product 10 1 "Taco"];
     modifiers := [modifier 100 10 "Spice" 0 0];
     currentOptions := [] |}.

(** The option buffer holds one option; the form describes a modifier of
    product 10. *)
Definition composing : MenuBuilder :=
  with_currentOptions two_categories [option_ 7 "Large"].

Definition spice_form : modifier_form :=
  {| mf_productId := int 10; mf_name := "Spice"; mf_min := int 2; mf_max := int 1;
     mf_type := int 1; mf_position := int 1 |}.

Definition size_form : modifier_form :=
  {| mf_productId := int 10; mf_name := "Size"; mf_min := int 0; mf_max := int 1;
     mf_type := int 1; mf_position := int 2 |}.

(** [{"menu":[null]}] *)
Definition doc_null_entry : jsval := JObj [("menu", JArr [JNull])].

(** [{"menu":[{"name":"Food","products":[{"id":2,"name":"Taco"}]}]}] *)
Definition doc_no_category_id : jsval :=
  JObj [("menu",
         JArr [JObj [("name", JStr "Food");
                     ("products", JArr [JObj [("id", num 2); ("name", JStr "Taco")]])]])].

(** [{"menu":[{"id":1,"name":"Food","products":[{"id":2,"name":"Taco","price":3,
    "modifiers":[{"id":3,"name":"Spice","options":[{"id":4,"label":"Mild","value":0}]}]}]}]}] *)
Definition doc_taco : jsval :=
  JObj [("menu",
         JArr [JObj [("id", num 1); ("name", JStr "Food");
                     ("products",
                      JArr [JObj [("id", num 2); ("name", JStr "Taco"); ("price", num 3);
                                  ("modifiers",
                                   JArr [JObj [("id", num 3); ("name", JStr "Spice");
                                               ("options",
                                                JArr [JObj [("id", num 4);
                                                            ("label", JStr "Mild");
                                                            ("value", num 0)]])]])]])]])].

(** ** Tactics *)

(** Closes a goal that asks for the toast of a finished run. *)
Ltac shown :=
  solve [ eexists; reflexivity
        | eexists; split; cycle 1; [ reflexivity | simpl; tauto ] ].

(** * The rest of the class: definitions *)

(** The toasts of the handlers below; three of their messages are not in
    the list [message]. *)
Inductive notice : Type :=
| Toast (t : toast)
| Toast_category_name_empty   (* 'El nombre de la categoria no puede estar vacio', 'error' *)
| Toast_data_loaded           (* 'Datos cargados correctamente' *)
| Toast_data_not_loaded.      (* 'Error al cargar los datos guardados', 'error' *)

(** An object found with [find] and then assigned to: the first record of
    the table that passes the test. *)
Fixpoint assign_found {A} (found : A -> bool) (g : A -> A) (l : list A) : list A :=
  match l with
  | [] => []
  | x :: l' => if found x then g x :: l' else x :: assign_found found g l'
  end.

(** ** Renaming a category (lines 274-310)

    The handler that [editCategory(id)] installs as the button's [onclick],
    run on the store that [editCategory] saw (the category with that id is
    in the table, and the handler assigns to it); [newName] is
    [categoryNameInput.value.trim()].  After the assignment the handler calls
    [this.updateCategoryOptions], which the class does not define.  On a
    click the listener of line 76 ([addCategory]) runs before this handler:
    see [click_update_category] below. *)
Definition updateCategory (id : jsval) (newName : string) : M notice :=
  if String.eqb newName "" then
    ret Toast_category_name_empty
  else
    s <- this ;;
    taken <- someM (categories s)
               (fun cat =>
                  if negb (strict_eq (cat_id cat) id) then
                    l <- toLowerCase (cat_name cat) ;;
                    ret (String.eqb l (lower newName))
                  else ret false) ;;
    if taken then
      ret (Toast (showToast Msg_category_exists error))
    else
      set_categories
        (assign_found (fun cat => strict_eq (cat_id cat) id)
           (fun cat => {| cat_id := cat_id cat; cat_name := JStr newName |})
           (categories s)) ;;
      throw TypeError.

(** ** Editing a modifier (lines 911-978) *)

(** The handler that [editModifier(id)] installs as the button's [onclick],
    run on the store that [editModifier] saw.  After the assignments it
    calls [this.renderPreview], which the class does not define.  On a click
    the listener of line 87 ([saveModifier]) runs before this handler: see
    [click_update_modifier] below. *)
Definition updateModifier (id : jsval) (f : modifier_form) : M toast :=
  if negb (num_truthy (mf_productId f)) then
    ret (showToast Msg_select_product error)
  else if negb (str_truthy (mf_name f)) then
    ret (showToast Msg_modifier_name_missing error)
  else if num_gt (mf_min f) (mf_max f) then
    ret (showToast Msg_min_gt_max error)
  else
    s <- this ;;
    if (List.length (currentOptions s) =? 0)%nat then
      ret (showToast Msg_no_options error)
    else
      set_modifiers
        (assign_found (fun m => strict_eq (mod_id m) id)
           (fun m => {| mod_id := mod_id m;
                        mod_productId := JNum (mf_productId f);
                        mod_name := JStr (mf_name f);
                        mod_min := JNum (mf_min f);
                        mod_max := JNum (mf_max f);
                        mod_type := JNum (mf_type f);
                        mod_position := JNum (mf_position f);
                        mod_options := currentOptions s |})
           (modifiers s)) ;;
      throw TypeError.

(** ** The preview (lines 1023-1051)

    The data that [updatePreview] renders: [groupedData], and which of its
    three outcomes is taken when the two containers are on the page.  The
    markup built from the groups is left out. *)
Definition groupedData (s : MenuBuilder)
  : list (Category * list (Product * list Modifier)) :=
  filter (fun group => (0 <? List.length (snd group))%nat)
    (map (fun category =>
            (category,
             map (fun product =>
                    (product,
                     filter (fun mod_ => strict_eq (mod_productId mod_) (prod_id product))
                            (modifiers s)))
                 (filter (fun prod => strict_eq (prod_categoryId prod) (cat_id category))
                         (products s))))
         (categories s)).

Inductive preview : Type :=
| No_data       (* 'No hay datos para mostrar' *)
| No_products   (* 'No hay productos para mostrar' *)
| Groups (groups : list (Category * list (Product * list Modifier))).

Definition updatePreview (s : MenuBuilder) : preview :=
  if (List.length (categories s) =? 0)%nat then No_data
  else if (List.length (groupedData s) =? 0)%nat then No_products
  else Groups (groupedData s).

(** The entry the export would write for a group of the preview. *)
Definition group_entry (group : Category * list (Product * list Modifier)) : jsval :=
  JObj [("id", cat_id (fst group));
        ("name", cat_name (fst group));
        ("products",
         JArr (map (fun pm : Product * list Modifier =>
                      JObj [("id", prod_id (fst pm));
                            ("name", prod_name (fst pm));
                            ("description", prod_description (fst pm));
                            ("price", prod_price (fst pm));
                            ("image", if truthy (prod_image (fst pm))
                                      then prod_image (fst pm) else JNull);
                            ("modifiers", JArr (map export_modifier (snd pm)))])
                   (snd group)))].

(** ** Persistence (lines 19-52) *)

(** The records as the objects they are. *)
Definition category_object (c : Category) : jsval :=
  JObj [("id", cat_id c); ("name", cat_name c)].

Definition product_object (p : Product) : jsval :=
  JObj [("id", prod_id p); ("categoryId", prod_categoryId p); ("name", prod_name p);
        ("description", prod_description p); ("price", prod_price p);
        ("image", prod_image p)].

Definition option_object (o : MenuOption) : jsval :=
  JObj [("id", opt_id o); ("label", opt_label o); ("value", opt_value o)].

Definition modifier_object (m : Modifier) : jsval :=
  JObj [("id", mod_id m); ("productId", mod_productId m); ("name", mod_name m);
        ("min", mod_min m); ("max", mod_max m); ("type", mod_type m);
        ("position", mod_position m);
        ("options", JArr (map option_object (mod_options m)))].

(** What [localStorage.getItem('menuBuilderData')] holds: nothing (or the
    empty string), a text that [JSON.parse] rejects, or a text that parses
    to [data]. *)
Inductive item : Type :=
| NoItem
| Unparsable
| Stored (data : jsval).

(** [saveToLocalStorage()]: the item it writes; [lastUpdated] is
    [new Date().toISOString()]. *)
Definition saveToLocalStorage (lastUpdated : string) (s : MenuBuilder) : item :=
  Stored (JSON_roundtrip
            (JObj [("categories", JArr (map category_object (categories s)));
                   ("products", JArr (map product_object (products s)));
                   ("modifiers", JArr (map modifier_object (modifiers s)));
                   ("lastUpdated", JStr lastUpdated)])).

(** Reading parsed objects back as records.  The typed tables hold objects
    with the keys of their record and nothing else; for any other stored
    shape the model has no answer ([None]). *)
Definition keys_within (allowed : list string) (ps : list (string * jsval)) : bool :=
  forallb (fun kv => existsb (String.eqb (fst kv)) allowed) ps.

Fixpoint all_some {A} (l : list (option A)) : option (list A) :=
  match l with
  | [] => Some []
  | None :: _ => None
  | Some x :: l' => match all_some l' with Some xs => Some (x :: xs) | None => None end
  end.

Definition as_category (v : jsval) : option Category :=
  match v with
  | JObj ps =>
      if keys_within ["id"; "name"] ps
      then Some {| cat_id := lookup "id" ps; cat_name := lookup "name" ps |}
      else None
  | _ => None
  end.

Definition as_product (v : jsval) : option Product :=
  match v with
  | JObj ps =>
      if keys_within ["id"; "categoryId"; "name"; "description"; "price"; "image"] ps
      then Some {| prod_id := lookup "id" ps;
                   prod_categoryId := lookup "categoryId" ps;
                   prod_name := lookup "name" ps;
                   prod_description := lookup "description" ps;
                   prod_price := lookup "price" ps;
                   prod_image := lookup "image" ps |}
      else None
  | _ => None
  end.

Definition as_option (v : jsval) : option MenuOption :=
  match v with
  | JObj ps =>
      if keys_within ["id"; "label"; "value"] ps
      then Some {| opt_id := lookup "id" ps;
                   opt_label := lookup "label" ps;
                   opt_value := lookup "value" ps |}
      else None
  | _ => None
  end.

Definition as_modifier (v : jsval) : option Modifier :=
  match v with
  | JObj ps =>
      if keys_within ["id"; "productId"; "name"; "min"; "max"; "type"; "position";
                      "options"] ps
      then match lookup "options" ps with
           | JArr os =>
               match all_some (map as_option os) with
               | Some options =>
                   Some {| mod_id := lookup "id" ps;
                           mod_productId := lookup "productId" ps;
                           mod_name := lookup "name" ps;
                           mod_min := lookup "min" ps;
                           mod_max := lookup "max" ps;
                           mod_type := lookup "type" ps;
                           mod_position := lookup "position" ps;
                           mod_options := options |}
               | None => None
               end
           | _ => None
           end
      else None
  | _ => None
  end.

(** [data.categories || []] as a table. *)
Definition as_table {A} (as_record : jsval -> option A) (v : jsval) : option (list A) :=
  if truthy v then
    match v with
    | JArr l => all_some (map as_record l)
    | _ => None
    end
  else Some [].

(** [loadFromLocalStorage()] on what [getItem] returned.  The rendering
    calls before the success toast (lines 42-44) are left out: when one of
    them throws, the [catch] clause shows the error toast over the tables
    that were just assigned. *)
Definition loadFromLocalStorage (savedData : item) : option (M (option notice)) :=
  match savedData with
  | NoItem => Some (ret None)
  | Unparsable => Some (ret (Some Toast_data_not_loaded))
  | Stored JUndefined | Stored JNull => Some (ret (Some Toast_data_not_loaded))
  | Stored data =>
      match as_table as_category (field data "categories"),
            as_table as_product (field data "products"),
            as_table as_modifier (field data "modifiers") with
      | Some cs, Some ps, Some ms =>
          Some (set_categories cs ;;
                set_products ps ;;
                set_modifiers ms ;;
                ret (Some Toast_data_loaded))
      | _, _, _ => None
      end
  end.

(** A record after [JSON.stringify] and [JSON.parse]. *)
Definition stored_category (c : Category) : Category :=
  {| cat_id := reread (cat_id c); cat_name := reread (cat_name c) |}.

Definition stored_product (p : Product) : Product :=
  {| prod_id := reread (prod_id p);
     prod_categoryId := reread (prod_categoryId p);
     prod_name := reread (prod_name p);
     prod_description := reread (prod_description p);
     prod_price := reread (prod_price p);
     prod_image := reread (prod_image p) |}.

Definition stored_option (o : MenuOption) : MenuOption :=
  {| opt_id := reread (opt_id o);
     opt_label := reread (opt_label o);
     opt_value := reread (opt_value o) |}.

Definition stored_modifier (m : Modifier) : Modifier :=
  {| mod_id := reread (mod_id m);
     mod_productId := reread (mod_productId m);
     mod_name := reread (mod_name m);
     mod_min := reread (mod_min m);
     mod_max := reread (mod_max m);
     mod_type := reread (mod_type m);
     mod_position := reread (mod_position m);
     mod_options := map stored_option (mod_options m) |}.

(** Every field of every record is a value that JSON text carries. *)
Definition option_plain (o : MenuOption) : bool :=
  plain (opt_id o) && plain (opt_label o) && plain (opt_value o).

Definition storable (s : MenuBuilder) : bool :=
  forallb (fun c => plain (cat_id c) && plain (cat_name c)) (categories s)
  && forallb (fun p => plain (prod_id p) && plain (prod_categoryId p)
                       && plain (prod_name p) && plain (prod_description p)
                       && plain (prod_price p) && plain (prod_image p)) (products s)
  && forallb (fun m => plain (mod_id m) && plain (mod_productId m) && plain (mod_name m)
                       && plain (mod_min m) && plain (mod_max m) && plain (mod_type m)
                       && plain (mod_position m)
                       && forallb option_plain (mod_options m)) (modifiers s).

(** ** Notions used by the statements about names *)

Definition is_string (v : jsval) : bool :=
  match v with JStr _ => true | _ => false end.

(** Every category has a string for a name (import does not see to it). *)
Definition names_are_strings (cats : list Category) : bool :=
  forallb (fun cat => is_string (cat_name cat)) cats.

(** The strings on which [lower] is [toLowerCase]: every character is an
    ASCII character. *)
Fixpoint is_ascii (s : string) : bool :=
  match s with
  | EmptyString => true
  | String c s' => (nat_of_ascii c <? 128)%nat && is_ascii s'
  end.

Definition ascii_name (v : jsval) : bool :=
  match v with JStr n => is_ascii n | _ => false end.

(** Every category has an ASCII string for a name. *)
Definition names_are_ascii (cats : list Category) : bool :=
  forallb (fun cat => ascii_name (cat_name cat)) cats.

(** The name equals [name] once both are in lower case. *)
Definition same_name (name : string) (v : jsval) : bool :=
  match v with
  | JStr n => String.eqb (lower n) (lower name)
  | _ => false
  end.

Definition name_taken (name : string) (cats : list Category) : bool :=
  existsb (fun cat => same_name name (cat_name cat)) cats.



(** The world after one more reading of the clock. *)
Definition tick (w : world) (s : MenuBuilder) : world :=
  {| self := s; clock := clock w; reads := S (reads w) |}.

(** The value of [Date.now()] in [w]. *)
Definition now (w : world) : jsval := JNum (int (clock w (reads w))).

(** A category that import stored without a name. *)
Definition nameless : MenuBuilder :=
  {| categories := [category 1 "Food"; {| cat_id := num 2; cat_name := JUndefined |}];
     products := []; modifiers := []; currentOptions := [] |}.

(** A form for a free product. *)
Definition free_sample : product_form :=
  {| pf_categoryId := int 2; pf_name := "Water"; pf_description := "Tap";
     pf_price := int 0; pf_image := "" |}.

(** The three field checks of [saveModifier] and of the update handler of
    [editModifier]. *)
Definition modifier_form_passes (f : modifier_form) : bool :=
  num_truthy (mf_productId f) && str_truthy (mf_name f)
  && negb (num_gt (mf_min f) (mf_max f)).

Definition modifier_of_form (id : jsval) (f : modifier_form) (options : list MenuOption)
  : Modifier :=
  {| mod_id := id;
     mod_productId := JNum (mf_productId f);
     mod_name := JStr (mf_name f);
     mod_min := JNum (mf_min f);
     mod_max := JNum (mf_max f);
     mod_type := JNum (mf_type f);
     mod_position := JNum (mf_position f);
     mod_options := options |}.

(** The world with the modifiers table and the option buffer replaced. *)
Definition committed (w : world) (ms : list Modifier) (buffer : list MenuOption) : world :=
  {| self := {| categories := categories (self w); products := products (self w);
                modifiers := ms; currentOptions := buffer |};
     clock := clock w; reads := reads w |}.

(** The min field of the form was left empty. *)
Definition no_min_form : modifier_form :=
  {| mf_productId := int 10; mf_name := "Size"; mf_min := NaN; mf_max := int 1;
     mf_type := int 1; mf_position := int 2 |}.

(** No two ids of the list are [===]. *)
Fixpoint distinct_ids (ids : list jsval) : bool :=
  match ids with
  | [] => true
  | i :: rest => negb (existsb (strict_eq i) rest) && distinct_ids rest
  end.

(** A property of the store that no push to a table can break. *)
Definition push_stable (I : MenuBuilder -> Prop) : Prop :=
  (forall s c, I s -> I (with_categories s (categories s ++ [c])))
  /\ (forall s p, I s -> I (with_products s (products s ++ [p])))
  /\ (forall s m, I s -> I (with_modifiers s (modifiers s ++ [m]))).

(** [{"menu":[]}] *)
Definition doc_empty_menu : jsval := JObj [("menu", JArr [])].

(** The value is truthy or it is the default [d]. *)
Definition defaulted (d v : jsval) : bool := truthy v || strict_eq v d.

Definition option_defaulted (o : MenuOption) : bool :=
  defaulted (num 0) (opt_value o).

Definition modifier_defaulted (m : Modifier) : bool :=
  defaulted (num 0) (mod_min m) && truthy (mod_max m) && truthy (mod_type m)
  && truthy (mod_position m) && forallb option_defaulted (mod_options m).

Definition product_defaulted (p : Product) : bool :=
  defaulted (JStr "") (prod_description p) && defaulted (num 0) (prod_price p)
  && defaulted (JStr "") (prod_image p).

(** Every record is as import's [||] leaves it. *)
Definition defaults_applied (s : MenuBuilder) : bool :=
  forallb product_defaulted (products s) && forallb modifier_defaulted (modifiers s).

Definition defaults_hold (s : MenuBuilder) : Prop := defaults_applied s = true.

(** [{"menu":[{"products":[{"price":"","modifiers":[{"max":0,"options":[{}]}]}]}]}] *)
Definition doc_falsy_fields : jsval :=
  JObj [("menu",
         JArr [JObj [("products",
                      JArr [JObj [("price", JStr "");
                                  ("modifiers",
                                   JArr [JObj [("max", num 0);
                                               ("options", JArr [JObj []])]])]])]])].

(** A modifier committed with an empty min field, among plain records. *)
Definition with_missing_min : MenuBuilder :=
  {| categories := [category 1 "Food"];
     products := [product 10 1 "Taco"];
     modifiers := [modifier_of_form (num 100) no_min_form [option_ 101 "Mild"]];
     currentOptions := [] |}.

(** The three tables after the export was imported again: the categories
    that have products, their products category by category, and the
    modifiers of those products product by product. *)
Definition regrouped_categories (s : MenuBuilder) : list Category :=
  filter (has_products s) (categories s).

Definition regrouped_products (s : MenuBuilder) : list Product :=
  flat_map (products_of s) (regrouped_categories s).

Definition regrouped_modifiers (s : MenuBuilder) : list Modifier :=
  flat_map (modifiers_of s) (regrouped_products s).

Definition regrouped (s : MenuBuilder) : MenuBuilder :=
  {| categories := regrouped_categories s;
     products := regrouped_products s;
     modifiers := regrouped_modifiers s;
     currentOptions := currentOptions s |}.

(** The children of a parent among [children], as the export and the
    preview select them: those whose reference is [===] the parent's key. *)
Definition kids {A B} (key : A -> jsval) (ref : B -> jsval) (children : list B) (a : A)
  : list B :=
  filter (fun b => strict_eq (ref b) (key a)) children.

(** ** A click on a button in edit mode

    [editCategory], [editProduct] and [editModifier] install their update
    handler with [button.onclick = ...] (lines 274, 541, 911).  The listener
    that [bindEvents] registered on the same button with [addEventListener]
    (lines 76, 82, 87) stays where it is.  A click therefore runs the
    listener first and the handler second, in the order of their
    registration; the handler runs whether the listener returned or threw,
    and it reads the form as the listener left it. *)



(** The product form after lines 412-416 have set its five fields to [''],
    as the handler reads it: [parseInt('')] and [parseFloat('')] are [NaN]. *)
Definition cleared_product_form : product_form :=
  {| pf_categoryId := NaN; pf_name := ""; pf_description := "";
     pf_price := NaN; pf_image := "" |}.

(** The product form after [addProduct] ran on it: cleared once the four
    checks have passed. *)
Definition product_form_after (f : product_form) : product_form :=
  if form_passes f then cleared_product_form else f.

(** A click on the product button while the handler of [editProduct(id)] is
    installed. *)
Definition click_update_product (id : jsval) (f : product_form) : M toast :=
  fun w =>
    let (_, w') := addProduct f w in
    updateProduct id (product_form_after f) w'.

(** The modifier form after lines 760-768: product and name [''], min ['0'],
    max ['1'], the type radio of value 1 checked, position ['1']. *)
Definition cleared_modifier_form : modifier_form :=
  {| mf_productId := NaN; mf_name := ""; mf_min := int 0; mf_max := int 1;
     mf_type := int 1; mf_position := int 1 |}.

(** The modifier form after [saveModifier] ran on it over the buffer
    [buffer]: cleared once the three field checks and the buffer check have
    passed. *)
Definition modifier_form_after (f : modifier_form) (buffer : list MenuOption)
  : modifier_form :=
  if modifier_form_passes f && negb (List.length buffer =? 0)%nat
  then cleared_modifier_form else f.

(** A click on the modifier button while the handler of [editModifier(id)]
    is installed. *)
Definition click_update_modifier (id : jsval) (f : modifier_form) : M toast :=
  fun w =>
    let (_, w') := saveModifier f w in
    updateModifier id (modifier_form_after f (currentOptions (self w))) w'.

(** "Fanta" with a new name and price, as the edit form would send it. *)
Definition sprite_form : product_form :=
  {| pf_categoryId := int 2; pf_name := "Sprite"; pf_description := "Lemon";
     pf_price := int 2; pf_image := "" |}.

(** The form without a name. *)
Definition unnamed_form : product_form :=
  {| pf_categoryId := int 2; pf_name := ""; pf_description := "Lemon";
     pf_price := int 2; pf_image := "" |}.

(** [drinks] with one option in the buffer. *)
Definition drinks_composing : MenuBuilder :=
  with_currentOptions drinks [option_ 7 "Large"].
(** * Theorems *)

(** ** Numbers and strict equality *)

Lemma int_compare (a b : Z) :
  Qccompare (Q2Qc (inject_Z a)) (Q2Qc (inject_Z b)) = Z.compare a b.
Proof.
  unfold Qccompare, Q2Qc. cbn [Qcanon.this].
  rewrite <- Qred_compare.
  unfold Qcompare, inject_Z. cbn [Qnum Qden]. now rewrite !Z.mul_1_r.
Qed.

Lemma num_gt_int (a b : Z) : num_gt (int a) (int b) = (b <? a)%Z.
Proof.
  unfold num_gt, num_lt, int. rewrite int_compare.
  unfold Z.ltb. reflexivity.
Qed.

Lemma num_eq_true (a b : jsnum) : num_eq a b = true -> a = b.
Proof.
  destruct a as [| x | p], b as [| y | q]; simpl; try discriminate.
  - intro H. apply Bool.eqb_prop in H. now subst.
  - intro H. apply Qc_eq_bool_correct in H. now subst.
Qed.

Lemma strict_eq_true (a b : jsval) : strict_eq a b = true -> a = b.
Proof.
  destruct a, b; simpl; try discriminate; intro H; try reflexivity.
  - apply Bool.eqb_prop in H. now subst.
  - apply num_eq_true in H. now subst.
  - apply String.eqb_eq in H. now subst.
Qed.

(** ** The handlers that only filter *)

Lemma deleteCategory_run (id : jsval) (w : world) :
  deleteCategory id w =
  (Normal (showToast Msg_category_deleted success),
   let ps := filter (fun prod => negb (strict_eq (prod_categoryId prod) id))
                    (products (self w)) in
   {| self :=
        {| categories := filter (fun cat => negb (strict_eq (cat_id cat) id))
                                (categories (self w));
           products := ps;
           modifiers := filter (fun m => negb (product_live ps m)) (modifiers (self w));
           currentOptions := currentOptions (self w) |};
      clock := clock w; reads := reads w |}).
Proof. reflexivity. Qed.

(** After [deleteCategory], no modifier that is left refers to a product that
    is left: the cascade keeps the modifiers of the products it removed and
    drops those of the products it kept. *)
Lemma deleteCategory_leaves_only_dangling_modifiers (id : jsval) (w : world) (m : Modifier) :
  let s' := self (snd (deleteCategory id w)) in
  In m (modifiers s') -> product_live (products s') m = false.
Proof.
  rewrite deleteCategory_run. simpl. intro H.
  apply filter_In in H. destruct H as [_ H].
  now apply negb_true_iff in H.
Qed.

(** C1 (the code departs from it): on a store with two categories, one
    product each and one modifier per product, [deleteCategory(1)] removes
    category 1 and its product 10, but keeps modifier 100 of the removed
    product and removes modifier 200 of the untouched product 20. *)
Theorem deleteCategory_cascade_inverted :
  run (deleteCategory (num 1)) (at_time 0 two_categories) =
  (Normal (showToast Msg_category_deleted success),
   {| categories := [category 2 "Drinks"];
      products := [product 20 2 "Cola"];
      modifiers := [modifier 100 10 "Spice" 0 1];
      currentOptions := [] |}).
Proof. reflexivity. Qed.

(** ** addProduct *)

(** [addProduct] never reads the products table: a form that passes the four
    field checks is appended whatever the table holds. *)
Lemma addProduct_appends (f : product_form) (w : world) :
  form_passes f = true ->
  addProduct f w =
  (Normal (showToast Msg_product_added success),
   {| self := with_products (self w)
                (products (self w)
                 ++ [product_of_form (JNum (int (clock w (reads w)))) f]);
      clock := clock w; reads := S (reads w) |}).
Proof.
  unfold form_passes, addProduct. intro H.
  apply andb_true_iff in H. destruct H as [H Hp].
  apply andb_true_iff in H. destruct H as [H Hd].
  apply andb_true_iff in H. destruct H as [Hc Hn].
  rewrite Hc, Hn, Hd. apply negb_true_iff in Hp. rewrite Hp. reflexivity.
Qed.

Lemma addProduct_rejects (f : product_form) (w : world) :
  form_passes f = false ->
  exists m, addProduct f w = (Normal (showToast m error), w).
Proof.
  unfold form_passes, addProduct. intro H.
  destruct (num_truthy (pf_categoryId f)); simpl in *; [| shown].
  destruct (str_truthy (pf_name f)); simpl in *; [| shown].
  destruct (str_truthy (pf_description f)); simpl in *; [| shown].
  destruct (isNaN (pf_price f) || num_lt (pf_price f) (int 0)); simpl in *;
    [shown | discriminate].
Qed.

(** C5 (the code departs from it): with "Cola" already in category 2,
    [addProduct] given the name "COLA" for the same category shows the
    success toast and appends a second record. *)
Theorem addProduct_accepts_duplicate_name :
  run (addProduct cola_again) (at_time 30 drinks) =
  (Normal (showToast Msg_product_added success),
   with_products drinks
     [product 20 2 "Cola"; product 21 2 "Fanta";
      {| prod_id := num 30; prod_categoryId := num 2; prod_name := JStr "COLA";
         prod_description := JStr "Cold soda"; prod_price := num 2;
         prod_image := JStr "" |}]).
Proof. reflexivity. Qed.

(** The update handler of [editProduct], given the same form while editing
    "Fanta", finds the collision and leaves the table alone. *)
Lemma updateProduct_rejects_duplicate_name :
  run (updateProduct (num 21) cola_again) (at_time 30 drinks) =
  (Normal (showToast Msg_product_exists error), drinks).
Proof. reflexivity. Qed.

(** ** saveModifier *)

(** C7: with an empty option buffer, [saveModifier] shows one of its four
    validation errors whatever the form holds, and changes nothing (the
    modifiers table included). *)
Theorem saveModifier_empty_buffer (f : modifier_form) (w : world) :
  currentOptions (self w) = [] ->
  exists m, In m validation_messages /\
            saveModifier f w = (Normal (showToast m error), w).
Proof.
  intro H. unfold saveModifier, validation_messages.
  destruct (num_truthy (mf_productId f)); simpl; [| shown].
  destruct (str_truthy (mf_name f)); simpl; [| shown].
  destruct (num_gt (mf_min f) (mf_max f)); simpl; [shown |].
  exists Msg_no_options. split; [simpl; tauto |].
  unfold bind, this. rewrite H. reflexivity.
Qed.

(** C7 at work: the form [spice_form] on a store whose buffer is empty. *)
Lemma saveModifier_empty_buffer_witness :
  exists m, In m validation_messages /\
            saveModifier spice_form (at_time 0 two_categories)
            = (Normal (showToast m error), at_time 0 two_categories).
Proof. apply (saveModifier_empty_buffer spice_form (at_time 0 two_categories)). reflexivity. Defined.

Lemma saveModifier_min_gt_max (f : modifier_form) (w : world) :
  num_gt (mf_min f) (mf_max f) = true ->
  exists m, In m validation_messages /\
            saveModifier f w = (Normal (showToast m error), w).
Proof.
  intro H. unfold saveModifier, validation_messages.
  destruct (num_truthy (mf_productId f)); simpl; [| shown].
  destruct (str_truthy (mf_name f)); simpl; [| shown].
  rewrite H. shown.
Qed.

(** C8: when the form's min and max are integers with min > max,
    [saveModifier] shows a validation error and commits nothing, whatever
    the product, name, type and position fields and the option buffer
    hold. *)
Theorem saveModifier_rejects_min_above_max
  (productId type position : jsnum) (name : string) (mn mx : Z) (w : world) :
  (mx < mn)%Z ->
  exists m, In m validation_messages /\
            saveModifier {| mf_productId := productId; mf_name := name;
                            mf_min := int mn; mf_max := int mx;
                            mf_type := type; mf_position := position |} w
            = (Normal (showToast m error), w).
Proof.
  intro H. apply saveModifier_min_gt_max. cbn [mf_min mf_max].
  rewrite num_gt_int. now apply Z.ltb_lt.
Qed.

(** C8 at work: min 2 and max 1. *)
Lemma saveModifier_rejects_min_above_max_witness :
  exists m, In m validation_messages /\
            saveModifier spice_form
              {| self := with_products two_categories []; clock := fun _ => 7%Z; reads := 0 |}
            = (Normal (showToast m error),
               {| self := with_products two_categories []; clock := fun _ => 7%Z; reads := 0 |}).
Proof.
  apply (saveModifier_rejects_min_above_max (int 10) (int 1) (int 1) "Spice" 2 1).
  lia.
Defined.

(** ** The validation errors leave the store alone *)

Lemma someM_pure {A} (l : list A) (f : A -> M bool) :
  (forall x w, snd (f x w) = w) -> forall w, snd (someM l f w) = w.
Proof.
  intros Hf. induction l as [| x l IH]; intros w; cbn [someM]; [reflexivity |].
  unfold bind. specialize (Hf x w).
  destruct (f x w) as [[[|] | e] w1]; cbn [snd] in *; subst w1;
    [reflexivity | apply IH | reflexivity].
Qed.

Lemma lowercase_name_pure (name : string) (cat : Category) (w : world) :
  snd ((l <- toLowerCase (cat_name cat) ;; ret (String.eqb l (lower name))) w) = w.
Proof. destruct (cat_name cat); reflexivity. Qed.

(** When [addCategory], [addProduct], [addOption] or [saveModifier] shows an
    error toast, nothing has changed. *)
Lemma validation_errors_leave_store (w w' : world) (t : toast) :
  toast_kind t = error ->
  (forall name, addCategory name w = (Normal t, w') -> w' = w)
  /\ (forall f, addProduct f w = (Normal t, w') -> w' = w)
  /\ (forall label raw, addOption label raw w = (Normal t, w') -> w' = w)
  /\ (forall f, saveModifier f w = (Normal t, w') -> w' = w).
Proof.
  intro Ht. repeat split.
  - intros name. unfold addCategory.
    destruct (negb (str_truthy name)); [intro H; now inversion H |].
    unfold bind at 1. unfold this at 1. unfold bind at 1.
    pose proof (someM_pure (categories (self w)) _ (lowercase_name_pure name) w) as Hs.
    destruct (someM _ _ w) as [[[|] | e] w1]; cbn [snd] in Hs; subst w1.
    + intro H. now inversion H.
    + cbn. intro H. inversion H; subst. discriminate Ht.
    + discriminate.
  - intros f. destruct (form_passes f) eqn:Hf.
    + rewrite (addProduct_appends f w Hf). intro H. inversion H; subst. discriminate Ht.
    + destruct (addProduct_rejects f w Hf) as [m Hm]. rewrite Hm.
      intro H. now inversion H.
  - intros label raw. unfold addOption.
    destruct (negb (str_truthy label)); [intro H; now inversion H |].
    cbn. intro H. inversion H; subst. discriminate Ht.
  - intros f. unfold saveModifier.
    destruct (negb (num_truthy (mf_productId f))); [intro H; now inversion H |].
    destruct (negb (str_truthy (mf_name f))); [intro H; now inversion H |].
    destruct (num_gt (mf_min f) (mf_max f)); [intro H; now inversion H |].
    unfold bind at 1. unfold this at 1.
    destruct (List.length (currentOptions (self w)) =? 0)%nat; [intro H; now inversion H |].
    cbn. intro H. inversion H; subst. discriminate Ht.
Qed.

(** ** Export *)

Lemma no_match_iff_empty {A} (f : A -> bool) (l : list A) :
  (List.length (filter f l) =? 0)%nat = negb (existsb f l).
Proof.
  induction l as [| x l IH]; simpl; [reflexivity |].
  destruct (f x); simpl; [reflexivity | exact IH].
Qed.

Lemma export_modifier_entry (m : Modifier) : export_modifier m = spec_modifier_entry m.
Proof. reflexivity. Qed.

Lemma export_product_entry (s : MenuBuilder) (p : Product) :
  export_product s p = spec_product_entry s p.
Proof. reflexivity. Qed.

Lemma export_category_entry (s : MenuBuilder) (c : Category) :
  export_category s c = if has_products s c then spec_category_entry s c else JNull.
Proof.
  unfold export_category, has_products. rewrite no_match_iff_empty.
  destruct (existsb _ _); reflexivity.
Qed.

Lemma filter_Boolean (s : MenuBuilder) (cats : list Category) :
  filter truthy (map (export_category s) cats)
  = map (spec_category_entry s) (filter (has_products s) cats).
Proof.
  induction cats as [| c cats IH]; simpl; [reflexivity |].
  rewrite export_category_entry.
  destruct (has_products s c); simpl; now rewrite IH.
Qed.

Lemma generateJSON_menu (created : string) (s : MenuBuilder) :
  field (generateJSON created s) "menu" = JArr (spec_menu s).
Proof.
  unfold generateJSON, spec_menu. cbn [field lookup String.eqb].
  simpl. now rewrite filter_Boolean.
Qed.

Lemma has_products_nonempty (s : MenuBuilder) (c : Category) :
  has_products s c = negb (List.length (products_of s c) =? 0)%nat.
Proof.
  unfold has_products, products_of. rewrite no_match_iff_empty.
  now rewrite negb_involutive.
Qed.

(** C9: the [menu] array of [generateJSON] is the list, in table order, of
    the entries [{id, name, products}] of the categories that have at least
    one product, each nesting that category's products with their modifiers
    and options; it has one entry per such category and no entry with an
    empty [products] array. *)
Theorem generateJSON_menu_projection (created : string) (s : MenuBuilder) :
  let menu := elems_of (field (generateJSON created s) "menu") in
  menu = spec_menu s
  /\ List.length menu = List.length (filter (has_products s) (categories s))
  /\ forallb (fun entry =>
                negb (List.length (elems_of (field entry "products")) =? 0)%nat) menu
     = true.
Proof.
  cbv zeta. rewrite generateJSON_menu. cbn [elems_of].
  split; [reflexivity |]. split.
  - unfold spec_menu. now rewrite length_map.
  - unfold spec_menu. apply forallb_forall. intros e He.
    apply in_map_iff in He. destruct He as [c [<- Hc]].
    apply filter_In in Hc. destruct Hc as [_ Hc].
    cbn [spec_category_entry field lookup String.eqb elems_of]. simpl.
    rewrite length_map. rewrite has_products_nonempty in Hc. exact Hc.
Qed.

(** C10: the metadata block of [generateJSON] reports the lengths of the
    whole tables.  [totalCategories] is the length of the menu array plus
    the number of categories without products: on [lonely_category] it is 1
    over an empty menu array.  On [orphans], whose product names a category
    that is not in the table, [totalProducts] and [totalModifiers] are 1
    while no product and no modifier is nested in the menu array. *)
Theorem metadata_counts_whole_tables (created : string) (s : MenuBuilder) :
  let total := fun s' k => field (field (generateJSON created s') "metadata") k in
  let menu_of := fun s' => elems_of (field (generateJSON created s') "menu") in
  let number := fun n : nat => JNum (Fin (Q2Qc (inject_Z (Z.of_nat n)))) in
  total s "totalCategories" = number (List.length (categories s))
  /\ total s "totalProducts" = number (List.length (products s))
  /\ total s "totalModifiers" = number (List.length (modifiers s))
  /\ total s "totalCategories"
     = number (List.length (menu_of s)
               + List.length (filter (fun c => negb (has_products s c)) (categories s)))%nat
  /\ (total lonely_category "totalCategories" = number 1%nat
      /\ List.length (menu_of lonely_category) = 0%nat)
  /\ (total orphans "totalProducts" = number 1%nat
      /\ nested_products (menu_of orphans) = 0%nat)
  /\ (total orphans "totalModifiers" = number 1%nat
      /\ nested_modifiers (menu_of orphans) = 0%nat).
Proof.
  cbv zeta. repeat split; try reflexivity.
  rewrite generateJSON_menu. cbn [elems_of]. unfold spec_menu.
  rewrite length_map, filter_length. reflexivity.
Qed.

(** ** Import: two runs *)

(** C4 (the code departs from it): importing [{"menu":[null]}] into a store
    that holds data empties the three tables, then fails on the [null] entry
    and shows the error toast of the [catch] clause. *)
Theorem importJSON_reports_error_after_clearing :
  run (importJSON (Document doc_null_entry)) (at_time 0 two_categories) =
  (Normal (showToast Msg_import_invalid error), empty_store).
Proof. reflexivity. Qed.

(** The two checks that precede the clearing do leave the store alone. *)
Lemma importJSON_unparsed (w : world) :
  importJSON Blank w = (Normal (showToast Msg_import_empty error), w)
  /\ importJSON Malformed w = (Normal (showToast Msg_import_invalid error), w).
Proof. split; reflexivity. Qed.

Lemma importJSON_without_menu (jsonData : jsval) (w : world) :
  negb (truthy (field jsonData "menu")) || negb (isArray (field jsonData "menu")) = true ->
  exists m, importJSON (Document jsonData) w = (Normal (showToast m error), w).
Proof.
  intro H. unfold importJSON, try_catch, bind, JSON_parse, ret.
  destruct jsonData; simpl in *; try shown.
  rewrite H. shown.
Qed.

(** C6 (the code departs from it): importing
    [{"menu":[{"name":"Food","products":[{"id":2,"name":"Taco"}]}]}] at clock
    time 1700 stores the category under the fresh id 1700, and its product
    with [categoryId] [undefined]. *)
Theorem importJSON_fresh_category_id_not_given_to_products :
  run (importJSON (Document doc_no_category_id)) (at_time 1700 empty_store) =
  (Normal (showToast Msg_import_done success),
   {| categories := [{| cat_id := num 1700; cat_name := JStr "Food" |}];
      products := [{| prod_id := num 2; prod_categoryId := JUndefined;
                      prod_name := JStr "Taco"; prod_description := JStr "";
                      prod_price := num 0; prod_image := JStr "" |}];
      modifiers := [];
      currentOptions := [] |}).
Proof. reflexivity. Qed.

(** ** Rules for triples *)

Section Rules.
Context {A B : Type}.
Implicit Types (P E : MenuBuilder -> Prop).

Lemma triple_ret (a : A) P (Q : A -> MenuBuilder -> Prop) E :
  (forall s, P s -> Q a s) -> triple P (ret a) Q E.
Proof. intros H w Hw. simpl. auto. Qed.

Lemma triple_throw (e : exn) P (Q : A -> MenuBuilder -> Prop) E :
  (forall s, P s -> E s) -> triple P (@throw A e) Q E.
Proof. intros H w Hw. simpl. auto. Qed.

Lemma triple_bind (m : M A) (k : A -> M B) P R (Q : B -> MenuBuilder -> Prop) E :
  triple P m R E -> (forall a, triple (R a) (k a) Q E) -> triple P (bind m k) Q E.
Proof.
  intros Hm Hk w Hw. unfold bind. specialize (Hm w Hw).
  destruct (m w) as [[a | e] w']; [apply Hk; exact Hm | exact Hm].
Qed.

Lemma triple_conseq (m : M A) P P' (Q Q' : A -> MenuBuilder -> Prop) E E' :
  triple P m Q E ->
  (forall s, P' s -> P s) -> (forall a s, Q a s -> Q' a s) -> (forall s, E s -> E' s) ->
  triple P' m Q' E'.
Proof.
  intros Hm HP HQ HE w Hw. specialize (Hm w (HP _ Hw)).
  destruct (m w) as [[a | e] w']; auto.
Qed.

Lemma triple_pure (phi : Prop) (m : M A) P (Q : A -> MenuBuilder -> Prop) E :
  (phi -> triple P m Q E) -> triple (fun s => phi /\ P s) m Q E.
Proof. intros H w [Hphi Hw]. now apply H. Qed.

Lemma triple_try_catch (body : M A) (handler : exn -> M A) P E'
      (Q : A -> MenuBuilder -> Prop) E :
  triple P body Q E' -> (forall e, triple E' (handler e) Q E) ->
  triple P (try_catch body handler) Q E.
Proof.
  intros Hb Hh w Hw. unfold try_catch. specialize (Hb w Hw).
  destruct (body w) as [[a | e] w']; [exact Hb | apply Hh; exact Hb].
Qed.

Lemma triple_after (m : M A) P (Q : MenuBuilder -> Prop) (w : world) :
  triple P m (fun _ => Q) Q -> P (self w) -> Q (after m w).
Proof.
  intros Hm Hw. unfold after. specialize (Hm w Hw).
  destruct (m w) as [[a | e] w']; exact Hm.
Qed.
End Rules.

Lemma triple_bind_ret {A B} (a : A) (k : A -> M B) P (Q : B -> MenuBuilder -> Prop) E :
  triple P (k a) Q E -> triple P (bind (ret a) k) Q E.
Proof. intros H w Hw. exact (H w Hw). Qed.

Lemma triple_this P :
  triple P this (fun s0 s => s0 = s /\ P s) P.
Proof. intros w Hw. simpl. auto. Qed.

Lemma triple_modify (f : MenuBuilder -> MenuBuilder) P (Q : unit -> MenuBuilder -> Prop) E :
  (forall s, P s -> Q tt (f s)) -> triple P (modify f) Q E.
Proof. intros H w Hw. simpl. auto. Qed.

Lemma triple_Date_now P : triple P Date_now (fun _ => P) P.
Proof. intros w Hw. exact Hw. Qed.

Lemma triple_prop (v : jsval) (k : string) P :
  triple P (prop v k) (fun a s => a = field v k /\ P s) P.
Proof. intros w Hw. destruct v; simpl; auto. Qed.

Lemma triple_or_else (v : jsval) (d : M jsval) P :
  keeps P d ->
  triple P (or_else v d) (fun a s => (truthy v = true -> a = v) /\ P s) P.
Proof.
  intros Hd w Hw. unfold or_else. destruct (truthy v) eqn:Hv.
  - simpl. auto.
  - specialize (Hd w Hw). destruct (d w) as [[a | e] w']; [| exact Hd].
    split; [discriminate | exact Hd].
Qed.

Lemma triple_toLowerCase (v : jsval) P : keeps P (toLowerCase v).
Proof. intros w Hw. destruct v; simpl; auto. Qed.

Lemma keeps_forEach {A} (l : list A) (f : A -> M unit) I :
  (forall x, In x l -> keeps I (f x)) -> keeps I (forEach l f).
Proof.
  induction l as [| x l IH]; intro H; simpl.
  - now apply triple_ret.
  - eapply triple_bind; [apply H; now left |].
    intros u. apply IH. intros y Hy. apply H. now right.
Qed.

Lemma keeps_mapM {A B} (l : list A) (f : A -> M B) I :
  (forall x, keeps I (f x)) -> keeps I (mapM l f).
Proof.
  intro H. induction l as [| x l IH]; simpl.
  - now apply triple_ret.
  - eapply triple_bind; [apply H |]. intros y.
    eapply triple_bind; [apply IH |]. intros ys. now apply triple_ret.
Qed.

Lemma keeps_someM {A} (l : list A) (f : A -> M bool) I :
  (forall x, keeps I (f x)) -> keeps I (someM l f).
Proof.
  intro H. induction l as [| x l IH]; simpl.
  - now apply triple_ret.
  - eapply triple_bind; [apply H |]. intros [|]; [now apply triple_ret | apply IH].
Qed.

Lemma triple_push_category (c : Category) P (Q : unit -> MenuBuilder -> Prop) E :
  (forall s, P s -> Q tt (with_categories s (categories s ++ [c]))) ->
  triple P (push_category c) Q E.
Proof. intros H w Hw. simpl. now apply H. Qed.

Lemma triple_push_product (p : Product) P (Q : unit -> MenuBuilder -> Prop) E :
  (forall s, P s -> Q tt (with_products s (products s ++ [p]))) ->
  triple P (push_product p) Q E.
Proof. intros H w Hw. simpl. now apply H. Qed.

Lemma triple_push_modifier (m : Modifier) P (Q : unit -> MenuBuilder -> Prop) E :
  (forall s, P s -> Q tt (with_modifiers s (modifiers s ++ [m]))) ->
  triple P (push_modifier m) Q E.
Proof. intros H w Hw. simpl. now apply H. Qed.

(** ** Referential integrity under the table updates *)

Lemma existsb_app_l {A} (f : A -> bool) (l l' : list A) :
  existsb f l = true -> existsb f (l ++ l') = true.
Proof. intro H. rewrite existsb_app, H. reflexivity. Qed.

Lemma forallb_snoc {A} (f : A -> bool) (l : list A) (x : A) :
  forallb f l = true -> f x = true -> forallb f (l ++ [x]) = true.
Proof. intros Hl Hx. rewrite forallb_app, Hl. simpl. now rewrite Hx. Qed.

Lemma forallb_impl {A} (f g : A -> bool) (l : list A) :
  (forall x, In x l -> f x = true -> g x = true) ->
  forallb f l = true -> forallb g l = true.
Proof.
  intros H Hf. apply forallb_forall. intros x Hx.
  apply H; [exact Hx |]. now apply (proj1 (forallb_forall f l) Hf).
Qed.

Lemma RI_split (s : MenuBuilder) :
  RI s <-> products_refer s = true /\ modifiers_refer s = true.
Proof. unfold RI, referential_integrity. apply andb_true_iff. Qed.

Lemma RI_push_category (s : MenuBuilder) (c : Category) :
  RI s -> RI (with_categories s (categories s ++ [c])).
Proof.
  rewrite !RI_split. intros [Hp Hm]. split; [| exact Hm].
  unfold products_refer in *. cbn [with_categories categories products].
  revert Hp. apply forallb_impl. intros p _. apply existsb_app_l.
Qed.

Lemma RI_push_product (s : MenuBuilder) (p : Product) :
  RI s -> category_live (categories s) p = true ->
  RI (with_products s (products s ++ [p])).
Proof.
  rewrite !RI_split. intros [Hp Hm] Hc. split.
  - unfold products_refer in *. cbn [with_products categories products].
    now apply forallb_snoc.
  - unfold modifiers_refer in *. cbn [with_products modifiers products].
    revert Hm. apply forallb_impl. intros m _. apply existsb_app_l.
Qed.

Lemma RI_push_modifier (s : MenuBuilder) (m : Modifier) :
  RI s -> product_live (products s) m = true ->
  RI (with_modifiers s (modifiers s ++ [m])).
Proof.
  rewrite !RI_split. intros [Hp Hm] Hl. split; [exact Hp |].
  unfold modifiers_refer in *. cbn [with_modifiers modifiers products].
  now apply forallb_snoc.
Qed.

Lemma strict_eq_transfer (a b c : jsval) :
  strict_eq a b = true -> strict_eq a c = strict_eq b c.
Proof. intro H. apply strict_eq_true in H. now subst. Qed.

Lemma existsb_filter_keep {A} (f keep : A -> bool) (l : list A) :
  (forall x, In x l -> f x = true -> keep x = true) ->
  existsb f l = true -> existsb f (filter keep l) = true.
Proof.
  intros H Hex. apply existsb_exists in Hex. destruct Hex as [x [Hx Hf]].
  apply existsb_exists. exists x. split; [| exact Hf].
  apply filter_In. split; [exact Hx | now apply H].
Qed.

Lemma forallb_filter {A} (f keep : A -> bool) (l : list A) :
  forallb f l = true -> forallb f (filter keep l) = true.
Proof.
  intro H. apply forallb_forall. intros x Hx. apply filter_In in Hx.
  now apply (proj1 (forallb_forall f l) H).
Qed.

(** Removing the products with one id and the modifiers that name it. *)
Lemma RI_deleteProduct (s : MenuBuilder) (id : jsval) :
  RI s ->
  RI {| categories := categories s;
        products := filter (fun prod => negb (strict_eq (prod_id prod) id)) (products s);
        modifiers := filter (fun m => negb (strict_eq (mod_productId m) id)) (modifiers s);
        currentOptions := currentOptions s |}.
Proof.
  rewrite !RI_split. intros [Hp Hm]. split.
  - unfold products_refer in *. cbn [categories products]. now apply forallb_filter.
  - unfold modifiers_refer in *. cbn [modifiers products].
    apply forallb_forall. intros m Hin. apply filter_In in Hin.
    destruct Hin as [Hin Hne].
    assert (Hl : product_live (products s) m = true)
      by now apply (proj1 (forallb_forall _ _) Hm).
    unfold product_live in *. revert Hl. apply existsb_filter_keep.
    intros p _ Hpm. now rewrite (strict_eq_transfer _ _ id Hpm).
Qed.

Lemma RI_deleteModifier (s : MenuBuilder) (keep : Modifier -> bool) :
  RI s -> RI (with_modifiers s (filter keep (modifiers s))).
Proof.
  rewrite !RI_split. intros [Hp Hm]. split; [exact Hp |].
  unfold modifiers_refer in *. cbn [with_modifiers modifiers products].
  now apply forallb_filter.
Qed.

(** The product half of the invariant survives [deleteCategory]. *)
Lemma products_refer_deleteCategory (s : MenuBuilder) (id : jsval) (ms : list Modifier) :
  products_refer s = true ->
  products_refer
    {| categories := filter (fun cat => negb (strict_eq (cat_id cat) id)) (categories s);
       products := filter (fun prod => negb (strict_eq (prod_categoryId prod) id)) (products s);
       modifiers := ms;
       currentOptions := currentOptions s |} = true.
Proof.
  unfold products_refer. cbn [categories products]. intro Hp.
  apply forallb_forall. intros p Hin. apply filter_In in Hin.
  destruct Hin as [Hin Hne].
  assert (Hl : category_live (categories s) p = true)
    by now apply (proj1 (forallb_forall _ _) Hp).
  unfold category_live in *. revert Hl. apply existsb_filter_keep.
  intros c _ Hcp. now rewrite (strict_eq_transfer _ _ id Hcp).
Qed.

(** ** The handlers keep referential integrity *)

Lemma addCategory_keeps_RI (name : string) : keeps RI (addCategory name).
Proof.
  unfold keeps, addCategory.
  destruct (negb (str_truthy name)); [now apply triple_ret |].
  eapply triple_bind; [apply triple_this |]. intros s.
  apply triple_conseq with (P := RI) (Q := fun _ => RI) (E := RI);
    [| now intros s' [_ H] | auto | auto].
  eapply triple_bind.
  - apply keeps_someM. intros cat.
    eapply triple_bind; [apply triple_toLowerCase |].
    intros l. now apply triple_ret.
  - intros [|]; [now apply triple_ret |].
    eapply triple_bind; [apply triple_Date_now |]. intros now.
    eapply triple_bind; [| intros u; apply triple_ret; intros s' H; exact H].
    apply triple_push_category. intros s' H. now apply RI_push_category.
Qed.

Lemma addProduct_keeps_RI (f : product_form) (w : world) :
  RI (self w) -> references_category (self w) f = true -> RI (after (addProduct f) w).
Proof.
  intros H Hc. destruct (form_passes f) eqn:Hf.
  - unfold after. rewrite (addProduct_appends f w Hf). cbn [snd self].
    apply RI_push_product; [exact H | exact Hc].
  - destruct (addProduct_rejects f w Hf) as [m Hm]. unfold after. now rewrite Hm.
Qed.

Lemma saveModifier_keeps_RI (f : modifier_form) (w : world) :
  RI (self w) -> references_product (self w) f = true -> RI (after (saveModifier f) w).
Proof.
  intros H Hp. unfold after, saveModifier.
  destruct (negb (num_truthy (mf_productId f))); [exact H |].
  destruct (negb (str_truthy (mf_name f))); [exact H |].
  destruct (num_gt (mf_min f) (mf_max f)); [exact H |].
  unfold bind at 1. unfold this at 1.
  destruct (List.length (currentOptions (self w)) =? 0)%nat; [exact H |].
  cbn. refine (RI_push_modifier (self w) _ H _). exact Hp.
Qed.

Lemma deleteProduct_keeps_RI (id : jsval) (w : world) :
  RI (self w) -> RI (after (deleteProduct id) w).
Proof. intro H. unfold after. cbn. now apply RI_deleteProduct. Qed.

Lemma deleteModifier_keeps_RI (id : jsval) (w : world) :
  RI (self w) -> RI (after (deleteModifier id) w).
Proof. intro H. unfold after. cbn. now apply RI_deleteModifier. Qed.

Lemma clearAllData_keeps_RI (confirmed : bool) (w : world) :
  RI (self w) -> RI (after (clearAllData confirmed) w).
Proof. intro H. destruct confirmed; [reflexivity | exact H]. Qed.

Lemma deleteCategory_keeps_products_refer (id : jsval) (w : world) :
  products_refer (self w) = true -> products_refer (after (deleteCategory id) w) = true.
Proof.
  intro H. unfold after. rewrite deleteCategory_run. cbn [snd self].
  cbv zeta. now apply products_refer_deleteCategory.
Qed.

(** ** Import keeps referential integrity when the ids are given *)

Lemma keeps_ret {A} (a : A) I : keeps I (ret a).
Proof. now apply triple_ret. Qed.

Lemma keeps_bind {A B} (m : M A) (k : A -> M B) I :
  keeps I m -> (forall a, keeps I (k a)) -> keeps I (bind m k).
Proof. intros Hm Hk. eapply triple_bind; [exact Hm | exact Hk]. Qed.

Lemma keeps_prop (v : jsval) (k : string) I : keeps I (prop v k).
Proof.
  eapply triple_conseq; [apply (triple_prop v k I) | auto | | auto].
  now intros a s [_ H].
Qed.

Lemma keeps_or_else (v : jsval) (d : M jsval) I : keeps I d -> keeps I (or_else v d).
Proof.
  intro Hd. eapply triple_conseq; [apply (triple_or_else v d I Hd) | auto | | auto].
  now intros a s [_ H].
Qed.

Ltac keep :=
  repeat first
    [ apply keeps_ret
    | apply keeps_prop
    | apply triple_Date_now
    | apply keeps_or_else
    | eapply keeps_bind; [| intros ?] ].

Lemma import_option_keeps (option : jsval) I : keeps I (import_option option).
Proof. unfold import_option. keep. Qed.

Lemma import_options_keeps (options : jsval) I :
  keeps I (if truthy options && isArray options
           then mapM (elems_of options) import_option
           else ret []).
Proof.
  destruct (truthy options && isArray options); [| apply keeps_ret].
  apply keeps_mapM. intros x. apply import_option_keeps.
Qed.

Lemma import_modifier_keeps (cid product modifier : jsval) :
  keeps (linked cid (field product "id")) (import_modifier product modifier).
Proof.
  unfold import_modifier.
  eapply keeps_bind; [apply keeps_prop | intros raw_id].
  eapply keeps_bind; [apply keeps_or_else, triple_Date_now | intros id].
  eapply triple_bind; [apply triple_prop | intros productId].
  apply triple_pure. intros ->.
  do 10 (eapply keeps_bind; [keep | intros ?]).
  eapply keeps_bind; [apply import_options_keeps | intros imported].
  apply triple_push_modifier. intros s (HRI & Hc & Hp).
  split; [| split; [exact Hc | exact Hp]].
  apply RI_push_modifier; [exact HRI | exact Hp].
Qed.

Lemma id_usable_truthy (v : jsval) : id_usable v = true -> truthy v = true.
Proof. unfold id_usable. intro H. now apply andb_true_iff in H. Qed.

Lemma id_usable_refl (v : jsval) : id_usable v = true -> strict_eq v v = true.
Proof. unfold id_usable. intro H. now apply andb_true_iff in H. Qed.

Lemma has_snoc {A} (f : A -> bool) (l : list A) (x : A) :
  f x = true -> existsb f (l ++ [x]) = true.
Proof. intro H. rewrite existsb_app. simpl. rewrite H. apply orb_true_iff. right. reflexivity. Qed.

Lemma import_product_keeps (category product : jsval) :
  product_has_id product = true ->
  keeps (rooted (field category "id")) (import_product category product).
Proof.
  intro Hid. unfold import_product, product_has_id in *.
  eapply triple_bind; [apply triple_prop | intros raw_id].
  apply triple_pure. intros ->.
  eapply triple_bind; [apply triple_or_else, triple_Date_now | intros id].
  apply triple_pure. intros Hraw. rewrite (Hraw (id_usable_truthy _ Hid)). clear Hraw id.
  eapply triple_bind; [apply triple_prop | intros categoryId].
  apply triple_pure. intros ->.
  do 7 (eapply keeps_bind; [keep | intros ?]).
  eapply triple_bind with (R := fun _ => linked (field category "id") (field product "id")).
  - apply triple_push_product. intros s [HRI Hc].
    split; [| split].
    + apply RI_push_product; [exact HRI | exact Hc].
    + exact Hc.
    + unfold has_product. cbn [with_products products].
      apply has_snoc. cbn [prod_id]. now apply id_usable_refl.
  - intros u.
    apply triple_conseq with (P := linked (field category "id") (field product "id"))
                             (Q := fun _ => linked (field category "id") (field product "id"))
                             (E := linked (field category "id") (field product "id"));
      [| auto | intros ? ? (H1 & H2 & _); now split
       | intros ? (H1 & H2 & _); now split].
    eapply keeps_bind; [apply keeps_prop | intros modifiers_].
    destruct (truthy modifiers_ && isArray modifiers_); [| apply keeps_ret].
    apply keeps_forEach. intros modifier _. apply import_modifier_keeps.
Qed.

Lemma import_category_keeps (category : jsval) :
  category_has_ids category = true -> keeps RI (import_category category).
Proof.
  intro Hids. unfold category_has_ids in Hids.
  apply andb_true_iff in Hids. destruct Hids as [Hid Hps].
  unfold import_category.
  eapply triple_bind; [apply triple_prop | intros raw_id].
  apply triple_pure. intros ->.
  eapply triple_bind; [apply triple_or_else, triple_Date_now | intros id].
  apply triple_pure. intros Hraw. rewrite (Hraw (id_usable_truthy _ Hid)). clear Hraw id.
  eapply keeps_bind; [apply keeps_prop | intros name].
  eapply triple_bind with (R := fun _ => rooted (field category "id")).
  - apply triple_push_category. intros s HRI. split.
    + now apply RI_push_category.
    + unfold has_category. cbn [with_categories categories].
      apply has_snoc. cbn [cat_id]. now apply id_usable_refl.
  - intros u.
    apply triple_conseq with (P := rooted (field category "id"))
                             (Q := fun _ => rooted (field category "id"))
                             (E := rooted (field category "id"));
      [| auto | now intros ? ? [H1 _] | now intros ? [H1 _]].
    eapply triple_bind; [apply triple_prop | intros products_].
    apply triple_pure. intros ->.
    destruct (truthy (field category "products") && isArray (field category "products"));
      [| apply keeps_ret].
    apply keeps_forEach. intros product Hin. apply import_product_keeps.
    now apply (proj1 (forallb_forall _ _) Hps).
Qed.

Lemma importJSON_keeps_RI (content : import_field) :
  document_has_ids content = true -> keeps RI (importJSON content).
Proof.
  intro Hids. unfold importJSON.
  destruct content as [| | jsonData]; [apply keeps_ret | |].
  - apply triple_try_catch with (E' := RI); [now apply triple_throw |].
    intros e. apply keeps_ret.
  - apply triple_try_catch with (E' := RI); [| intros e; apply keeps_ret].
    cbn [JSON_parse document_has_ids] in *.
    apply triple_bind_ret.
    eapply triple_bind; [apply (triple_prop jsonData "menu") | intros menu].
    apply triple_pure. intros ->.
    destruct (negb (truthy (field jsonData "menu")) || negb (isArray (field jsonData "menu")));
      [apply keeps_ret |].
    eapply triple_bind with (R := fun _ s => categories s = []);
      [apply triple_modify; reflexivity | intros u1].
    eapply triple_bind with (R := fun _ s => categories s = [] /\ products s = []);
      [apply triple_modify; intros s H; split; [exact H | reflexivity] | intros u2].
    eapply triple_bind with (R := fun _ => RI).
    + apply triple_modify. intros s [Hc Hp]. apply RI_split.
      unfold products_refer, modifiers_refer. cbn [categories products modifiers].
      rewrite Hp. split; reflexivity.
    + intros u3. eapply keeps_bind; [| intros u4; apply keeps_ret].
      apply keeps_forEach. intros category Hin. apply import_category_keeps.
      now apply (proj1 (forallb_forall _ _) Hids).
Qed.

(** C2 as stated fails: on the empty store, which is consistent,
    [addProduct] accepts a form that names category 2 and leaves a product
    whose category is not in the table.  The handler checks only that the
    category field is filled. *)
Lemma addProduct_breaks_referential_integrity :
  referential_integrity empty_store = true
  /\ run (addProduct cola_again) (at_time 30 empty_store)
     = (Normal (showToast Msg_product_added success),
        with_products empty_store [product_of_form (num 30) cola_again])
  /\ referential_integrity (after (addProduct cola_again) (at_time 30 empty_store)) = false.
Proof. repeat split. Qed.

(** The two slips break the invariant too: the modifier left by
    [deleteCategory] (C1), and the product imported under a category whose
    id had to be generated (C6). *)
Lemma deleteCategory_breaks_referential_integrity :
  referential_integrity two_categories = true
  /\ referential_integrity (after (deleteCategory (num 1)) (at_time 0 two_categories)) = false.
Proof. split; reflexivity. Qed.

Lemma importJSON_breaks_referential_integrity :
  referential_integrity
    (after (importJSON (Document doc_no_category_id)) (at_time 1700 empty_store)) = false.
Proof. reflexivity. Qed.

(** C2, amended: from a store where every product's category and every
    modifier's product are in their tables, the same holds after
    [addCategory], [deleteProduct], [deleteModifier] and [clearAllData];
    after [addProduct] when the form's category is in the categories table;
    after [saveModifier] when the form's product is in the products table;
    after [importJSON] when every category entry and every product entry of
    the document carries a truthy primitive id.  After [deleteCategory]
    every product's category is still in the categories table. *)
Theorem referential_integrity_preserved (w : world) :
  referential_integrity (self w) = true ->
  (forall name, referential_integrity (after (addCategory name) w) = true)
  /\ (forall f, references_category (self w) f = true ->
                referential_integrity (after (addProduct f) w) = true)
  /\ (forall f, references_product (self w) f = true ->
                referential_integrity (after (saveModifier f) w) = true)
  /\ (forall id, referential_integrity (after (deleteProduct id) w) = true)
  /\ (forall id, referential_integrity (after (deleteModifier id) w) = true)
  /\ (forall confirmed, referential_integrity (after (clearAllData confirmed) w) = true)
  /\ (forall id, products_refer (after (deleteCategory id) w) = true)
  /\ (forall content, document_has_ids content = true ->
                      referential_integrity (after (importJSON content) w) = true).
Proof.
  intro H. repeat split.
  - intros name. exact (triple_after _ _ _ w (addCategory_keeps_RI name) H).
  - intros f Hf. now apply addProduct_keeps_RI.
  - intros f Hf. now apply saveModifier_keeps_RI.
  - intros id. now apply deleteProduct_keeps_RI.
  - intros id. now apply deleteModifier_keeps_RI.
  - intros confirmed. now apply clearAllData_keeps_RI.
  - intros id. apply deleteCategory_keeps_products_refer.
    now apply RI_split in H.
  - intros content Hc. exact (triple_after _ _ _ w (importJSON_keeps_RI content Hc) H).
Qed.

(** C2, amended, at work: a new category, a product of a listed category, a
    modifier of a listed product, and the import of a document with ids. *)
Lemma referential_integrity_preserved_witness :
  referential_integrity (after (addCategory "Sides") (at_time 30 drinks)) = true
  /\ referential_integrity (after (addProduct cola_again) (at_time 30 drinks)) = true
  /\ referential_integrity (after (saveModifier size_form) (at_time 30 composing)) = true
  /\ referential_integrity (after (importJSON (Document doc_taco)) (at_time 30 drinks)) = true.
Proof.
  destruct (referential_integrity_preserved (at_time 30 drinks) eq_refl)
    as (Hcat & Hprod & _ & _ & _ & _ & _ & Himp).
  destruct (referential_integrity_preserved (at_time 30 composing) eq_refl)
    as (_ & _ & Hmod & _).
  split; [apply Hcat |].
  split; [apply Hprod; reflexivity |].
  split; [apply Hmod; reflexivity |].
  apply Himp; reflexivity.
Defined.

(** The second scenario of the specification: the defaults of import. *)
Lemma importJSON_taco :
  run (importJSON (Document doc_taco)) (at_time 30 drinks) =
  (Normal (showToast Msg_import_done success),
   {| categories := [category 1 "Food"];
      products := [{| prod_id := num 2; prod_categoryId := num 1; prod_name := JStr "Taco";
                      prod_description := JStr ""; prod_price := num 3;
                      prod_image := JStr "" |}];
      modifiers := [{| mod_id := num 3; mod_productId := num 2; mod_name := JStr "Spice";
                       mod_min := num 0; mod_max := num 1; mod_type := num 1;
                       mod_position := num 1;
                       mod_options := [option_ 4 "Mild"] |}];
      currentOptions := [] |}).
Proof. reflexivity. Qed.

Lemma saveModifier_commits :
  run (saveModifier size_form) (at_time 30 composing) =
  (Normal (showToast Msg_modifier_saved success),
   with_modifiers two_categories
     (modifiers two_categories
      ++ [{| mod_id := num 30; mod_productId := num 10; mod_name := JStr "Size";
             mod_min := num 0; mod_max := num 1; mod_type := num 1;
             mod_position := num 2; mod_options := [option_ 7 "Large"] |}])).
Proof. reflexivity. Qed.

(** ** Reading back what JSON wrote *)

Lemma JSON_roundtrip_obj (ps : list (string * jsval)) :
  JSON_roundtrip (JObj ps) = JObj (strip ps).
Proof. reflexivity. Qed.

Lemma lookup_absent (k : string) (ps : list (string * jsval)) :
  existsb (fun kv => String.eqb k (fst kv)) ps = false -> lookup k ps = JUndefined.
Proof.
  induction ps as [| [k' v] ps IH]; [reflexivity |].
  cbn [existsb lookup fst]. intro H. apply orb_false_iff in H.
  destruct H as [Hk Hps]. rewrite Hk. now apply IH.
Qed.

Lemma lookup_strip (k : string) (ps : list (string * jsval)) :
  distinct_keys ps = true -> lookup k (strip ps) = reread (lookup k ps).
Proof.
  induction ps as [| [k' v] ps IH]; [reflexivity |].
  cbn [distinct_keys]. intro H. apply andb_true_iff in H. destruct H as [Hk Hps].
  apply negb_true_iff in Hk. specialize (IH Hps).
  assert (Hundef : String.eqb k k' = true -> lookup k ps = JUndefined).
  { intro E. apply String.eqb_eq in E. subst k'. now apply lookup_absent. }
  destruct v; cbn [strip lookup];
    destruct (String.eqb k k') eqn:E; try reflexivity; try exact IH.
  rewrite IH, (Hundef eq_refl). reflexivity.
Qed.

Lemma prop_reread (ps : list (string * jsval)) (k : string) :
  distinct_keys ps = true ->
  prop (JSON_roundtrip (JObj ps)) k = ret (reread (lookup k ps)).
Proof.
  intro H. rewrite JSON_roundtrip_obj. cbn [prop]. now rewrite lookup_strip.
Qed.

Lemma reread_plain (v : jsval) : plain v = true -> reread v = v.
Proof. destruct v as [| | | [| |] | | |]; simpl; congruence. Qed.

Lemma or_else_kept (v : jsval) (d : M jsval) :
  id_kept v = true -> or_else (reread v) d = ret v.
Proof.
  unfold id_kept. intro H. apply andb_true_iff in H. destruct H as [Hp Ht].
  rewrite (reread_plain v Hp). unfold or_else. now rewrite Ht.
Qed.

Lemma or_else_survives (d v : jsval) :
  survives d v = true -> or_else (reread v) (ret d) = ret v.
Proof.
  unfold survives. intro H. apply andb_true_iff in H. destruct H as [Hp Ht].
  rewrite (reread_plain v Hp). unfold or_else.
  destruct (truthy v); [reflexivity |].
  cbn [orb] in Ht. apply strict_eq_true in Ht. now subst.
Qed.

(** ** Export followed by import, level by level *)

Lemma bind_ret_l {A B} (a : A) (k : A -> M B) : bind (ret a) k = k a.
Proof. reflexivity. Qed.

Lemma bind_run {A B} (m : M A) (k : A -> M B) (w w' : world) (a : A) :
  m w = (Normal a, w') -> bind m k w = k a w'.
Proof. intro H. unfold bind. now rewrite H. Qed.

Ltac returned := repeat (rewrite bind_ret_l; cbv beta).

Lemma import_option_roundtrip (o : MenuOption) :
  option_survives o = true -> import_option (JSON_roundtrip (export_option o)) = ret o.
Proof.
  destruct o as [id label value]. unfold option_survives. cbn [opt_id opt_label opt_value].
  intro H. apply andb_true_iff in H. destruct H as [H Hv].
  apply andb_true_iff in H. destruct H as [Hid Hl].
  unfold import_option, export_option. cbn [opt_id opt_label opt_value].
  rewrite !prop_reread by reflexivity.
  cbn [lookup String.eqb Ascii.eqb Bool.eqb].
  rewrite (reread_plain label Hl). returned.
  rewrite (or_else_kept id _ Hid). returned.
  rewrite (or_else_survives (JNum (int 0)) value Hv). returned.
  reflexivity.
Qed.

Lemma import_options_roundtrip (os : list MenuOption) :
  forallb option_survives os = true ->
  mapM (map JSON_roundtrip (map export_option os)) import_option = ret os.
Proof.
  induction os as [| o os IH]; cbn [map mapM forallb]; intro H; [reflexivity |].
  apply andb_true_iff in H. destruct H as [Ho Hos].
  rewrite (import_option_roundtrip o Ho), (IH Hos). reflexivity.
Qed.

Lemma id_kept_plain (v : jsval) : id_kept v = true -> plain v = true.
Proof. unfold id_kept. intro H. now apply andb_true_iff in H. Qed.

Lemma import_modifier_roundtrip (s : MenuBuilder) (p : Product) (m : Modifier) :
  id_kept (prod_id p) = true -> modifier_survives m = true ->
  strict_eq (mod_productId m) (prod_id p) = true ->
  import_modifier (JSON_roundtrip (export_product s p)) (JSON_roundtrip (export_modifier m))
  = push_modifier m.
Proof.
  destruct m as [id productId name mn mx type position options].
  unfold modifier_survives.
  cbn [mod_id mod_productId mod_name mod_min mod_max mod_type mod_position mod_options].
  intros Hp H Hlink.
  apply andb_true_iff in H. destruct H as [H Hoptions].
  apply andb_true_iff in H. destruct H as [H Hposition].
  apply andb_true_iff in H. destruct H as [H Htype].
  apply andb_true_iff in H. destruct H as [H Hmax].
  apply andb_true_iff in H. destruct H as [H Hmin].
  apply andb_true_iff in H. destruct H as [Hid Hname].
  apply strict_eq_true in Hlink. subst productId.
  unfold import_modifier, export_modifier, export_product.
  cbn [mod_id mod_productId mod_name mod_min mod_max mod_type mod_position mod_options].
  rewrite !prop_reread by reflexivity.
  cbn [lookup String.eqb Ascii.eqb Bool.eqb].
  rewrite (reread_plain name Hname), (reread_plain _ (id_kept_plain _ Hp)). returned.
  rewrite (or_else_kept id _ Hid). returned.
  rewrite (or_else_survives (JNum (int 0)) mn Hmin). returned.
  rewrite (or_else_survives (JNum (int 1)) mx Hmax). returned.
  rewrite (or_else_survives (JNum (int 1)) type Htype). returned.
  rewrite (or_else_survives (JNum (int 1)) position Hposition). returned.
  cbn [reread JSON_roundtrip truthy isArray andb elems_of].
  rewrite (import_options_roundtrip options Hoptions). returned.
  reflexivity.
Qed.

Lemma tables_same (w : world) :
  tables w (categories (self w)) (products (self w)) (modifiers (self w)) = w.
Proof. destruct w as [[cs ps ms os] c r]. reflexivity. Qed.

(** The loop over a product's modifiers appends them in order. *)
Lemma forEach_modifiers (f : jsval -> M unit) (enc : Modifier -> jsval)
      (ms : list Modifier) :
  (forall m, In m ms -> f (enc m) = push_modifier m) ->
  forall w, forEach (map enc ms) f w =
            (Normal tt,
             tables w (categories (self w)) (products (self w)) (modifiers (self w) ++ ms)).
Proof.
  induction ms as [| m ms IH]; intros H w; cbn [map forEach].
  - rewrite app_nil_r, tables_same. reflexivity.
  - rewrite (H m (or_introl eq_refl)).
    erewrite bind_run; [| reflexivity].
    rewrite IH; [| intros m' Hm'; apply H; now right].
    unfold tables. cbn [self categories products modifiers currentOptions clock reads].
    now rewrite <- app_assoc.
Qed.

Lemma or_else_image (image : jsval) :
  survives (JStr "") image = true ->
  or_else (reread (if truthy image then image else JNull)) (ret (JStr "")) = ret image.
Proof.
  unfold survives. intro H. apply andb_true_iff in H. destruct H as [Hp Ht].
  unfold or_else. destruct (truthy image) eqn:E.
  - now rewrite (reread_plain image Hp), E.
  - cbn [orb] in Ht. apply strict_eq_true in Ht. now subst.
Qed.

Lemma import_product_roundtrip (s : MenuBuilder) (c : Category) (p : Product) (w : world) :
  id_kept (cat_id c) = true -> product_survives p = true ->
  strict_eq (prod_categoryId p) (cat_id c) = true ->
  forallb modifier_survives (modifiers_of s p) = true ->
  import_product (JSON_roundtrip (spec_category_entry s c))
                 (JSON_roundtrip (export_product s p)) w
  = (Normal tt,
     tables w (categories (self w)) (products (self w) ++ [p])
            (modifiers (self w) ++ modifiers_of s p)).
Proof.
  intros Hc H Hlink Hmods.
  assert (Hpid : id_kept (prod_id p) = true).
  { unfold product_survives in H. do 4 (apply andb_true_iff in H; destruct H as [H _]).
    exact H. }
  set (P := JSON_roundtrip (export_product s p)).
  assert (HP : forall k, prop P k = ret (reread (field (export_product s p) k)))
    by (intro k; apply prop_reread; reflexivity).
  assert (Hloop : forall m, In m (modifiers_of s p) ->
                            import_modifier P (JSON_roundtrip (export_modifier m))
                            = push_modifier m).
  { intros m Hm. apply import_modifier_roundtrip; [exact Hpid | |].
    - now apply (proj1 (forallb_forall _ _) Hmods).
    - unfold modifiers_of in Hm. apply filter_In in Hm. now destruct Hm. }
  clearbody P.
  destruct p as [id categoryId name description price image].
  unfold product_survives in H.
  cbn [prod_id prod_categoryId prod_name prod_description prod_price prod_image] in *.
  apply andb_true_iff in H. destruct H as [H Himage].
  apply andb_true_iff in H. destruct H as [H Hprice].
  apply andb_true_iff in H. destruct H as [H Hdescription].
  apply andb_true_iff in H. destruct H as [Hid Hname].
  apply strict_eq_true in Hlink. subst categoryId.
  unfold import_product.
  rewrite !HP. unfold spec_category_entry. rewrite !prop_reread by reflexivity.
  cbn [field export_product lookup String.eqb Ascii.eqb Bool.eqb
       prod_id prod_categoryId prod_name prod_description prod_price prod_image].
  rewrite (reread_plain name Hname), (reread_plain _ (id_kept_plain _ Hc)). returned.
  rewrite (or_else_kept id _ Hid). returned.
  rewrite (or_else_survives (JStr "") description Hdescription). returned.
  rewrite (or_else_survives (JNum (int 0)) price Hprice). returned.
  rewrite (or_else_image image Himage). returned.
  cbn [reread JSON_roundtrip truthy isArray andb elems_of]. rewrite map_map.
  erewrite bind_run; [| reflexivity].
  etransitivity;
    [apply (forEach_modifiers (import_modifier P)
              (fun m => JSON_roundtrip (export_modifier m)) _ Hloop) |].
  reflexivity.
Qed.

(** The loop over a category's products appends them, and their modifiers
    product by product. *)
Lemma forEach_products (s : MenuBuilder) (f : jsval -> M unit) (enc : Product -> jsval)
      (ps : list Product) :
  (forall p w, In p ps ->
               f (enc p) w =
               (Normal tt,
                tables w (categories (self w)) (products (self w) ++ [p])
                       (modifiers (self w) ++ modifiers_of s p))) ->
  forall w, forEach (map enc ps) f w =
            (Normal tt,
             tables w (categories (self w)) (products (self w) ++ ps)
                    (modifiers (self w) ++ flat_map (modifiers_of s) ps)).
Proof.
  induction ps as [| p ps IH]; intros H w; cbn [map forEach flat_map].
  - rewrite !app_nil_r, tables_same. reflexivity.
  - erewrite bind_run; [| apply H; now left].
    rewrite IH; [| intros p' w' Hp'; apply H; now right].
    unfold tables. cbn [self categories products modifiers currentOptions clock reads].
    now rewrite <- !app_assoc.
Qed.

Lemma forallb_in {A} (f : A -> bool) (l : list A) (x : A) :
  forallb f l = true -> In x l -> f x = true.
Proof. intros H Hx. now apply (proj1 (forallb_forall f l) H). Qed.

Lemma import_category_roundtrip (s : MenuBuilder) (c : Category) (w : world) :
  category_survives c = true ->
  forallb product_survives (products s) = true ->
  forallb modifier_survives (modifiers s) = true ->
  import_category (JSON_roundtrip (spec_category_entry s c)) w
  = (Normal tt,
     tables w (categories (self w) ++ [c]) (products (self w) ++ products_of s c)
            (modifiers (self w) ++ flat_map (modifiers_of s) (products_of s c))).
Proof.
  intros H Hps Hms.
  unfold category_survives in H. apply andb_true_iff in H. destruct H as [Hid Hname].
  set (C := JSON_roundtrip (spec_category_entry s c)).
  assert (HC : forall k, prop C k = ret (reread (field (spec_category_entry s c) k)))
    by (intro k; apply prop_reread; reflexivity).
  assert (Hloop : forall p w', In p (products_of s c) ->
             import_product C (JSON_roundtrip (export_product s p)) w' =
             (Normal tt,
              tables w' (categories (self w')) (products (self w') ++ [p])
                     (modifiers (self w') ++ modifiers_of s p))).
  { intros p w' Hp. unfold products_of in Hp. apply filter_In in Hp.
    destruct Hp as [Hin Hlink].
    apply import_product_roundtrip; [exact Hid | | exact Hlink |].
    - exact (forallb_in _ _ _ Hps Hin).
    - unfold modifiers_of. now apply forallb_filter. }
  clearbody C.
  destruct c as [id name]. cbn [cat_id cat_name] in *.
  unfold import_category. rewrite !HC.
  cbn [field spec_category_entry lookup String.eqb Ascii.eqb Bool.eqb cat_id cat_name].
  rewrite (reread_plain name Hname). returned.
  rewrite (or_else_kept id _ Hid). returned.
  cbn [reread JSON_roundtrip truthy isArray andb elems_of]. rewrite map_map.
  erewrite bind_run; [| reflexivity].
  etransitivity;
    [apply (forEach_products s (import_product C)
              (fun p => JSON_roundtrip (export_product s p)) _ Hloop) |].
  reflexivity.
Qed.

(** The loop over the menu appends the categories, their products category
    by category, and the modifiers of those products in that order. *)
Lemma forEach_categories (s : MenuBuilder) (cs : list Category) :
  forallb category_survives cs = true ->
  forallb product_survives (products s) = true ->
  forallb modifier_survives (modifiers s) = true ->
  forall w,
    forEach (map (fun c => JSON_roundtrip (spec_category_entry s c)) cs) import_category w
    = (Normal tt,
       tables w (categories (self w) ++ cs)
              (products (self w) ++ flat_map (products_of s) cs)
              (modifiers (self w)
               ++ flat_map (modifiers_of s) (flat_map (products_of s) cs))).
Proof.
  intros Hcs Hps Hms.
  induction cs as [| c cs IH]; intros w; cbn [map forEach flat_map].
  - rewrite !app_nil_r, tables_same. reflexivity.
  - cbn [forallb] in Hcs. apply andb_true_iff in Hcs. destruct Hcs as [Hc Hcs].
    erewrite bind_run; [| now apply import_category_roundtrip].
    rewrite (IH Hcs).
    unfold tables. cbn [self categories products modifiers currentOptions clock reads].
    now rewrite flat_map_app, <- !app_assoc.
Qed.

Lemma try_catch_normal {A} (body : M A) (handler : exn -> M A) (w w' : world) (a : A) :
  body w = (Normal a, w') -> try_catch body handler w = (Normal a, w').
Proof. intro H. unfold try_catch. now rewrite H. Qed.

Lemma filter_all {A} (f : A -> bool) (l : list A) :
  forallb f l = true -> filter f l = l.
Proof.
  induction l as [| x l IH]; cbn [forallb filter]; intro H; [reflexivity |].
  apply andb_true_iff in H. destruct H as [Hx Hl]. rewrite Hx. now rewrite IH.
Qed.

(** C3 as stated fails: in [interleaved] every category has a product, but
    the products table lists "Cola" (category 2) between the two products
    of category 1; the export nests the products under their categories and
    the import lists them category by category. *)
Lemma roundtrip_reorders_products :
  every_category_has_products interleaved = true
  /\ map prod_name (products interleaved) = [JStr "Taco"; JStr "Cola"; JStr "Burrito"]
  /\ map prod_name (products (after (reimport "2025-01-01" interleaved)
                                    (at_time 0 interleaved)))
     = [JStr "Taco"; JStr "Burrito"; JStr "Cola"]
  /\ products (after (reimport "2025-01-01" interleaved) (at_time 0 interleaved))
     <> products interleaved.
Proof.
  repeat split. intro H. apply (f_equal (map prod_name)) in H. discriminate H.
Qed.

(** A value is lost as well: a modifier saved with max 0 comes back with
    max 1, because import reads [modifier.max || 1]. *)
Lemma roundtrip_replaces_zero_max :
  every_category_has_products zero_max = true
  /\ map mod_max (modifiers zero_max) = [num 0]
  /\ map mod_max (modifiers (after (reimport "2025-01-01" zero_max) (at_time 0 zero_max)))
     = [num 1].
Proof. repeat split. Qed.

(** The run of the model on such a store. *)
Lemma reimport_grouped (created : string) (s : MenuBuilder) (w : world) :
  every_category_has_products s = true ->
  products_grouped s ->
  modifiers_grouped s ->
  fields_survive s = true ->
  reimport created s w
  = (Normal (showToast Msg_import_done success),
     tables w (categories s) (products s) (modifiers s)).
Proof.
  intros Hfull Hps Hms H.
  unfold fields_survive in H.
  apply andb_true_iff in H. destruct H as [H Hm].
  apply andb_true_iff in H. destruct H as [Hc Hp].
  unfold reimport, importJSON, generateJSON.
  apply try_catch_normal. cbn [JSON_parse]. returned.
  rewrite prop_reread by reflexivity.
  cbn [lookup String.eqb Ascii.eqb Bool.eqb reread JSON_roundtrip]. returned.
  cbn [truthy isArray negb orb elems_of].
  rewrite filter_Boolean, (filter_all _ _ Hfull), map_map.
  do 3 (erewrite bind_run; [| reflexivity]).
  erewrite bind_run; [| now apply forEach_categories].
  unfold ret, tables.
  cbn [self categories products modifiers currentOptions clock reads app].
  unfold products_grouped in Hps. unfold modifiers_grouped in Hms.
  rewrite <- Hps, <- Hms. reflexivity.
Qed.

(** C3, amended: if every category has at least one product, the products
    table lists the products category by category in the order of the
    categories table, the modifiers table lists the modifiers product by
    product in the order of the products table, every id is a truthy
    primitive that JSON carries, and every other field is a JSON primitive
    that is truthy or equal to the default import would put in its place,
    then importing the text of the export leaves exactly the same three
    tables, records and options in the same order, whatever the importing
    store held; its option buffer stays. *)
Theorem export_import_roundtrip (created : string) (s : MenuBuilder) (w : world) :
  every_category_has_products s = true ->
  products_grouped s ->
  modifiers_grouped s ->
  fields_survive s = true ->
  let s' := after (reimport created s) w in
  categories s' = categories s
  /\ products s' = products s
  /\ modifiers s' = modifiers s
  /\ currentOptions s' = currentOptions (self w).
Proof.
  intros Hfull Hps Hms H. cbv zeta. unfold after.
  rewrite (reimport_grouped created s w Hfull Hps Hms H).
  repeat split.
Qed.

(** C3, amended, at work: [two_categories] exported and imported over
    another store. *)
Lemma export_import_roundtrip_witness :
  let s' := after (reimport "2025-01-01" two_categories) (at_time 0 lonely_category) in
  categories s' = categories two_categories
  /\ products s' = products two_categories
  /\ modifiers s' = modifiers two_categories
  /\ currentOptions s' = [].
Proof.
  apply (export_import_roundtrip "2025-01-01" two_categories (at_time 0 lonely_category));
    reflexivity.
Defined.

(** * The rest of the class: theorems *)

(** ** Category names *)

Lemma someM_decides {A} (l : list A) (f : A -> M bool) (g : A -> bool) (w : world) :
  (forall x, In x l -> f x w = (Normal (g x), w)) ->
  someM l f w = (Normal (existsb g l), w).
Proof.
  induction l as [| x l IH]; intro H; cbn [someM existsb]; [reflexivity |].
  erewrite bind_run; [| apply H; now left].
  destruct (g x); cbn [orb]; [reflexivity |].
  apply IH. intros y Hy. apply H. now right.
Qed.

Lemma someM_throws {A} (pre post : list A) (x : A) (f : A -> M bool) (e : exn)
      (w : world) :
  (forall y, In y pre -> f y w = (Normal false, w)) ->
  f x w = (Throw e, w) ->
  someM (pre ++ x :: post)%list f w = (Throw e, w).
Proof.
  intros Hpre Hx. induction pre as [| y pre IH]; cbn [app someM].
  - unfold bind. now rewrite Hx.
  - erewrite bind_run; [| apply Hpre; now left].
    apply IH. intros z Hz. apply Hpre. now right.
Qed.

Lemma compare_name (name : string) (cat : Category) (w : world) :
  is_string (cat_name cat) = true ->
  (l <- toLowerCase (cat_name cat) ;; ret (String.eqb l (lower name))) w
  = (Normal (same_name name (cat_name cat)), w).
Proof. destruct (cat_name cat); try discriminate. reflexivity. Qed.

Lemma compare_name_throws (name : string) (cat : Category) (w : world) :
  is_string (cat_name cat) = false ->
  (l <- toLowerCase (cat_name cat) ;; ret (String.eqb l (lower name))) w
  = (Throw TypeError, w).
Proof. destruct (cat_name cat); try discriminate; reflexivity. Qed.

Lemma addCategory_run (name : string) (w : world) :
  str_truthy name = true ->
  names_are_strings (categories (self w)) = true ->
  addCategory name w =
  if name_taken name (categories (self w))
  then (Normal (showToast Msg_category_exists error), w)
  else (Normal (showToast Msg_category_added success),
        tick w (with_categories (self w)
                  (categories (self w) ++ [{| cat_id := now w; cat_name := JStr name |}]))).
Proof.
  intros Hname Hstr. unfold addCategory. rewrite Hname. cbn [negb].
  unfold bind at 1. unfold this at 1. unfold bind at 1.
  rewrite (someM_decides _ _ (fun cat => same_name name (cat_name cat))).
  - fold (name_taken name (categories (self w))).
    destruct (name_taken name (categories (self w))); reflexivity.
  - intros cat Hin. apply compare_name.
    exact (forallb_in _ _ _ Hstr Hin).
Qed.

Lemma ascii_names_are_strings (cats : list Category) :
  names_are_ascii cats = true -> names_are_strings cats = true.
Proof.
  apply forallb_impl. intros cat _. unfold ascii_name, is_string.
  destruct (cat_name cat); congruence.
Qed.

(** X1.  On a store whose category names are ASCII strings, [addCategory]
    with a non-empty ASCII name is decided by one test.  If some category
    has that name up to the case of its letters, the error toast is shown
    and nothing changes.  Otherwise [{id: Date.now(), name}] is appended to
    the categories, the clock has been read once and nothing else has
    changed. *)
Theorem addCategory_decided_by_name (name : string) (w : world) :
  str_truthy name = true ->
  is_ascii name = true ->
  names_are_ascii (categories (self w)) = true ->
  (name_taken name (categories (self w)) = true ->
   addCategory name w = (Normal (showToast Msg_category_exists error), w))
  /\ (name_taken name (categories (self w)) = false ->
      snd (addCategory name w)
      = tick w (with_categories (self w)
                  (categories (self w)
                   ++ [{| cat_id := now w; cat_name := JStr name |}]))).
Proof.
  intros Hname _ Hstr. apply ascii_names_are_strings in Hstr.
  rewrite (addCategory_run name w Hname Hstr).
  split; intros ->; reflexivity.
Qed.

(** X1 at work: "DRINKS" is refused on [drinks], "Sides" is added. *)
Lemma addCategory_decided_by_name_witness :
  addCategory "DRINKS" (at_time 30 drinks)
  = (Normal (showToast Msg_category_exists error), at_time 30 drinks)
  /\ categories (after (addCategory "Sides") (at_time 30 drinks))
     = [category 2 "Drinks"; category 30 "Sides"].
Proof.
  split.
  - apply (addCategory_decided_by_name "DRINKS" (at_time 30 drinks)); reflexivity.
  - unfold after.
    rewrite (proj2 (addCategory_decided_by_name "Sides" (at_time 30 drinks)
                      eq_refl eq_refl eq_refl) eq_refl).
    reflexivity.
Defined.

Lemma lower_nonempty (a b : string) :
  lower a = lower b -> str_truthy a = true -> str_truthy b = true.
Proof. destruct a, b; simpl; congruence. Qed.

Lemma name_taken_snoc (name name' : string) (id : jsval) (cats : list Category) :
  lower name' = lower name ->
  name_taken name' (cats ++ [{| cat_id := id; cat_name := JStr name |}]) = true.
Proof.
  intro H. unfold name_taken. rewrite existsb_app. cbn [existsb cat_name same_name].
  rewrite H, String.eqb_refl. now rewrite orb_true_r.
Qed.

(** X2.  After a category was added, adding the same name again, in any
    case of its (ASCII) letters, is refused: the error toast is shown and
    the store stays as the first call left it, with the one new category. *)
Theorem addCategory_twice (name name' : string) (w : world) :
  str_truthy name = true ->
  is_ascii name = true ->
  is_ascii name' = true ->
  names_are_ascii (categories (self w)) = true ->
  name_taken name (categories (self w)) = false ->
  lower name' = lower name ->
  let w' := snd (addCategory name w) in
  categories (self w')
  = (categories (self w) ++ [{| cat_id := now w; cat_name := JStr name |}])%list
  /\ addCategory name' w' = (Normal (showToast Msg_category_exists error), w').
Proof.
  intros Hname _ _ Hstr Hfree Hsame. apply ascii_names_are_strings in Hstr. cbv zeta.
  rewrite (addCategory_run name w Hname Hstr), Hfree. cbn [snd].
  split; [reflexivity |].
  rewrite addCategory_run.
  - cbn [tick self with_categories categories].
    now rewrite (name_taken_snoc name name' _ _ Hsame).
  - apply (lower_nonempty name name'); [now symmetry | exact Hname].
  - cbn [tick self with_categories categories]. unfold names_are_strings in *.
    rewrite forallb_app, Hstr. reflexivity.
Qed.

Lemma addCategory_twice_witness :
  let w' := snd (addCategory "Sides" (at_time 30 drinks)) in
  categories (self w') = [category 2 "Drinks"; category 30 "Sides"]
  /\ addCategory "SIDES" w' = (Normal (showToast Msg_category_exists error), w').
Proof.
  apply (addCategory_twice "Sides" "SIDES" (at_time 30 drinks)); reflexivity.
Defined.

(** X3.  When a category's name is not a string (import stores whatever the
    document has, a missing name included) and no category before it has the
    new name (the names before it and the new one being ASCII strings),
    [addCategory] throws a [TypeError] out of the handler: nothing is added
    and no toast is shown. *)
Theorem addCategory_throws_on_nameless (name : string) (w : world)
        (before later : list Category) (cat : Category) :
  str_truthy name = true ->
  is_ascii name = true ->
  categories (self w) = (before ++ cat :: later)%list ->
  names_are_ascii before = true ->
  name_taken name before = false ->
  is_string (cat_name cat) = false ->
  addCategory name w = (Throw TypeError, w).
Proof.
  intros Hname _ Hcats Hstr Hfree Hcat. apply ascii_names_are_strings in Hstr.
  unfold addCategory. rewrite Hname. cbn [negb].
  unfold bind at 1. unfold this at 1. unfold bind at 1. rewrite Hcats.
  rewrite (someM_throws before later cat _ TypeError w); [reflexivity | |].
  - intros y Hy. rewrite compare_name by exact (forallb_in _ _ _ Hstr Hy).
    f_equal. f_equal.
    apply not_true_is_false. intro Hc.
    assert (Ht : name_taken name before = true).
    { apply existsb_exists. now exists y. }
    congruence.
  - now apply compare_name_throws.
Qed.

Lemma addCategory_throws_on_nameless_witness :
  addCategory "Sides" (at_time 30 nameless) = (Throw TypeError, at_time 30 nameless).
Proof.
  apply (addCategory_throws_on_nameless "Sides" (at_time 30 nameless)
           [category 1 "Food"] [] {| cat_id := num 2; cat_name := JUndefined |});
    reflexivity.
Defined.

(** ** Renaming a category *)







(** ** The update handlers keep the ids *)

Lemma map_assign_found {A B} (h : A -> B) (found : A -> bool) (g : A -> A) (l : list A) :
  (forall x, h (g x) = h x) -> map h (assign_found found g l) = map h l.
Proof.
  intro H. induction l as [| x l IH]; cbn [assign_found map]; [reflexivity |].
  destruct (found x); cbn [map]; [now rewrite H | now rewrite IH].
Qed.

Lemma map_assign_first {B} (h : Product -> B) (id : jsval) (g : Product -> Product)
      (l : list Product) :
  (forall x, h (g x) = h x) -> map h (assign_first id g l) = map h l.
Proof.
  intro H. induction l as [| x l IH]; cbn [assign_first map]; [reflexivity |].
  destruct (strict_eq (prod_id x) id); cbn [map]; [now rewrite H | now rewrite IH].
Qed.

Lemma someM_after {A B} (l : list A) (f : A -> M bool) (k : bool -> M B) (w : world)
      (P : MenuBuilder -> Prop) :
  (forall x w', snd (f x w') = w') ->
  P (self w) -> (forall b, P (after (k b) w)) ->
  P (after (bind (someM l f) k) w).
Proof.
  intros Hf Hw Hk. unfold after, bind.
  pose proof (someM_pure l f Hf w) as Hs.
  destruct (someM l f w) as [[b | e] w1]; cbn [snd] in Hs; subst w1.
  - apply Hk.
  - exact Hw.
Qed.

Lemma other_name_pure (id : jsval) (name : string) (cat : Category) (w : world) :
  snd ((if negb (strict_eq (cat_id cat) id)
        then l <- toLowerCase (cat_name cat) ;; ret (String.eqb l (lower name))
        else ret false) w) = w.
Proof.
  destruct (negb (strict_eq (cat_id cat) id)); [apply lowercase_name_pure | reflexivity].
Qed.

Lemma other_product_pure (id : jsval) (f : product_form) (p : Product) (w : world) :
  snd ((if negb (strict_eq (prod_id p) id)
        then l <- toLowerCase (prod_name p) ;;
             ret (String.eqb l (lower (pf_name f))
                  && strict_eq (prod_categoryId p) (JNum (pf_categoryId f)))
        else ret false) w) = w.
Proof.
  destruct (negb (strict_eq (prod_id p) id)); [| reflexivity].
  destruct (prod_name p); reflexivity.
Qed.

Lemma forallb_same {A} (f g : A -> bool) (l : list A) :
  (forall x, f x = g x) -> forallb f l = forallb g l.
Proof. intro H. induction l as [| x l IH]; cbn [forallb]; [reflexivity |]. now rewrite H, IH. Qed.

Lemma live_by_ids (cats cats' : list Category) (p : Product) :
  map cat_id cats' = map cat_id cats -> category_live cats' p = category_live cats p.
Proof.
  unfold category_live. revert cats'.
  induction cats as [| c cats IH]; intros [| c' cats'] H; try discriminate; [reflexivity |].
  cbn [map] in H. injection H as Hc Hrest. cbn [existsb]. rewrite Hc. f_equal. now apply IH.
Qed.

(** X5.  The three update handlers never add, remove or re-identify a
    record, whatever they are given and however they end: the ids of the
    table they write are the same, in the same order, and the other two
    tables are untouched.  After [updateCategory] the store is consistent
    exactly if it was before. *)
Theorem update_handlers_keep_ids (id : jsval) (w : world) :
  (forall newName,
      let s' := after (updateCategory id newName) w in
      map cat_id (categories s') = map cat_id (categories (self w))
      /\ products s' = products (self w) /\ modifiers s' = modifiers (self w)
      /\ referential_integrity s' = referential_integrity (self w))
  /\ (forall f,
         let s' := after (updateProduct id f) w in
         map prod_id (products s') = map prod_id (products (self w))
         /\ categories s' = categories (self w) /\ modifiers s' = modifiers (self w))
  /\ (forall f,
         let s' := after (updateModifier id f) w in
         map mod_id (modifiers s') = map mod_id (modifiers (self w))
         /\ categories s' = categories (self w) /\ products s' = products (self w)).
Proof.
  split; [| split].
  - intros newName. cbv zeta.
    assert (H : let s' := after (updateCategory id newName) w in
                map cat_id (categories s') = map cat_id (categories (self w))
                /\ products s' = products (self w) /\ modifiers s' = modifiers (self w)).
    { unfold updateCategory. destruct (String.eqb newName ""); [now repeat split |].
      unfold after. unfold bind at 1. unfold this at 1. fold (after
        (bind (someM (categories (self w))
                 (fun cat => if negb (strict_eq (cat_id cat) id)
                             then l <- toLowerCase (cat_name cat) ;;
                                  ret (String.eqb l (lower newName))
                             else ret false))
              (fun taken => if taken
                            then ret (Toast (showToast Msg_category_exists error))
                            else set_categories
                                   (assign_found (fun cat => strict_eq (cat_id cat) id)
                                      (fun cat => {| cat_id := cat_id cat;
                                                     cat_name := JStr newName |})
                                      (categories (self w))) ;;
                                 throw TypeError)) w).
      apply someM_after with
        (P := fun s' => map cat_id (categories s') = map cat_id (categories (self w))
                        /\ products s' = products (self w)
                        /\ modifiers s' = modifiers (self w)).
      - intros x w'. apply other_name_pure.
      - now repeat split.
      - intros [|]; [now repeat split |].
        unfold after. cbn. repeat split. now apply map_assign_found. }
    cbv zeta in H. destruct H as (Hids & Hp & Hm). repeat split; try assumption.
    unfold referential_integrity, products_refer, modifiers_refer.
    rewrite Hp, Hm. f_equal. apply forallb_same. intros p. now apply live_by_ids.
  - intros f. cbv zeta. unfold updateProduct.
    destruct (negb (num_truthy (pf_categoryId f))); [now repeat split |].
    destruct (negb (str_truthy (pf_name f))); [now repeat split |].
    destruct (negb (str_truthy (pf_description f))); [now repeat split |].
    destruct (isNaN (pf_price f) || num_le (pf_price f) (int 0)); [now repeat split |].
    unfold after at 1 2 3. unfold bind at 1 3 5. unfold this at 1 2 3.
    match goal with
    | |- context [bind (someM ?l ?f) ?k] =>
        fold (after (bind (someM l f) k) w);
        apply someM_after with
          (P := fun s' => map prod_id (products s') = map prod_id (products (self w))
                          /\ categories s' = categories (self w)
                          /\ modifiers s' = modifiers (self w))
    end.
    + intros x w'. apply other_product_pure.
    + now repeat split.
    + intros [|]; [now repeat split |].
      unfold after. cbn. repeat split. now apply map_assign_first.
  - intros f. cbv zeta. unfold updateModifier.
    destruct (negb (num_truthy (mf_productId f))); [now repeat split |].
    destruct (negb (str_truthy (mf_name f))); [now repeat split |].
    destruct (num_gt (mf_min f) (mf_max f)); [now repeat split |].
    unfold after, bind at 1 3 5, this.
    destruct (List.length (currentOptions (self w)) =? 0)%nat; [now repeat split |].
    cbn. repeat split. now apply map_assign_found.
Qed.

(** ** Products *)

Lemma Qc_eq_bool_refl (q : Qc) : Qc_eq_bool q q = true.
Proof. unfold Qc_eq_bool. destruct (Qc_eq_dec q q); [reflexivity | congruence]. Qed.

Lemma strict_eq_now (w : world) : strict_eq (now w) (now w) = true.
Proof. unfold now, int. cbn [strict_eq num_eq]. apply Qc_eq_bool_refl. Qed.

(** X7.  [Date.now()] is the only source of ids: two products added while
    the clock shows the same millisecond get the same id, and
    [deleteProduct] with that id then removes both. *)
Theorem same_tick_products_deleted_together (f1 f2 : product_form) (w : world) :
  form_passes f1 = true ->
  form_passes f2 = true ->
  clock w (S (reads w)) = clock w (reads w) ->
  products (after (addProduct f1 ;; addProduct f2 ;; deleteProduct (now w)) w)
  = filter (fun p => negb (strict_eq (prod_id p) (now w))) (products (self w)).
Proof.
  intros H1 H2 Hclock. unfold after.
  erewrite bind_run; [| now apply addProduct_appends].
  erewrite bind_run; [| now apply addProduct_appends].
  cbn. rewrite Hclock. rewrite <- app_assoc. rewrite filter_app. cbn [filter app prod_id product_of_form].
  fold (now w). rewrite strict_eq_now. cbn [negb]. now rewrite app_nil_r.
Qed.

Lemma same_tick_products_deleted_together_witness :
  products (after (addProduct cola_again ;; addProduct free_sample ;; deleteProduct (num 30))
                  (at_time 30 drinks))
  = [product 20 2 "Cola"; product 21 2 "Fanta"].
Proof.
  apply (same_tick_products_deleted_together cola_again free_sample (at_time 30 drinks));
    reflexivity.
Defined.

(** ** Removing *)

Lemma filter_idem {A} (f : A -> bool) (l : list A) : filter f (filter f l) = filter f l.
Proof.
  induction l as [| x l IH]; cbn [filter]; [reflexivity |].
  destruct (f x) eqn:E; cbn [filter]; [rewrite E; now f_equal | exact IH].
Qed.

Lemma filter_out_none {A} (f : A -> bool) (l : list A) :
  existsb f l = false -> filter (fun x => negb (f x)) l = l.
Proof.
  induction l as [| x l IH]; cbn [existsb filter]; [reflexivity |].
  intro H. apply orb_false_iff in H. destruct H as [Hx Hl]. rewrite Hx. cbn [negb].
  now rewrite IH.
Qed.

Lemma filter_out_all {A} (f : A -> bool) (l : list A) :
  forallb f l = true -> filter (fun x => negb (f x)) l = [].
Proof.
  induction l as [| x l IH]; cbn [forallb filter]; [reflexivity |].
  intro H. apply andb_true_iff in H. destruct H as [Hx Hl]. rewrite Hx. cbn [negb].
  now apply IH.
Qed.

(** X8.  Each of the four removing handlers can be repeated: called a second
    time with the same id it changes nothing more (and the delete handlers
    show their toast again). *)
Theorem removing_twice_is_removing_once (id : jsval) (w : world) :
  (deleteCategory id ;; deleteCategory id) w = deleteCategory id w
  /\ (deleteProduct id ;; deleteProduct id) w = deleteProduct id w
  /\ (deleteModifier id ;; deleteModifier id) w = deleteModifier id w
  /\ (removeOption id ;; removeOption id) w = removeOption id w.
Proof.
  repeat split.
  - erewrite bind_run; [| apply deleteCategory_run].
    rewrite !deleteCategory_run. cbv zeta.
    cbn [self categories products modifiers currentOptions clock reads].
    now rewrite !filter_idem.
  - cbn. now rewrite !filter_idem.
  - cbn. now rewrite !filter_idem.
  - cbn. now rewrite !filter_idem.
Qed.

(** X9.  [deleteCategory] with an id that no category has is not a no-op:
    on a consistent store it leaves the categories and the products as they
    are and removes every modifier. *)
Theorem deleteCategory_unknown_id_removes_all_modifiers (id : jsval) (w : world) :
  referential_integrity (self w) = true ->
  existsb (fun cat => strict_eq (cat_id cat) id) (categories (self w)) = false ->
  snd (deleteCategory id w) = tables w (categories (self w)) (products (self w)) [].
Proof.
  intros HRI Hid. apply RI_split in HRI. destruct HRI as [Hp Hm].
  assert (Hnone : existsb (fun prod => strict_eq (prod_categoryId prod) id)
                          (products (self w)) = false).
  { apply not_true_is_false. intro Hex. apply existsb_exists in Hex.
    destruct Hex as [p [Hin Hpid]].
    pose proof (forallb_in _ _ _ Hp Hin) as Hlive.
    unfold category_live in Hlive. apply existsb_exists in Hlive.
    destruct Hlive as [c [Hc Hcp]].
    assert (Hex : existsb (fun cat => strict_eq (cat_id cat) id) (categories (self w)) = true).
    { apply existsb_exists. exists c. split; [exact Hc |].
      apply strict_eq_true in Hcp. now rewrite Hcp. }
    congruence. }
  rewrite deleteCategory_run. cbv zeta. cbn [snd]. unfold tables. f_equal. f_equal.
  - now apply filter_out_none.
  - now apply (filter_out_none (fun prod => strict_eq (prod_categoryId prod) id)).
  - rewrite (filter_out_none (fun prod => strict_eq (prod_categoryId prod) id)) by exact Hnone.
    now apply filter_out_all.
Qed.

Lemma deleteCategory_unknown_id_removes_all_modifiers_witness :
  after (deleteCategory (num 9)) (at_time 0 two_categories)
  = with_modifiers two_categories [].
Proof.
  unfold after.
  rewrite (deleteCategory_unknown_id_removes_all_modifiers (num 9) (at_time 0 two_categories));
    reflexivity.
Defined.

(** ** The option buffer and the modifiers *)

Lemma strict_eq_int (z : Z) : strict_eq (JNum (int z)) (JNum (int z)) = true.
Proof. unfold int. cbn [strict_eq num_eq]. apply Qc_eq_bool_refl. Qed.

(** X10.  An option just added is taken out again by [removeOption] with
    its id, and the buffer (with the rest of the store) is as before,
    provided no option of the buffer already had that id (one added in the
    same millisecond would go with it). *)
Theorem addOption_then_removeOption (label : string) (raw : jsnum) (w : world) :
  str_truthy label = true ->
  existsb (fun opt => strict_eq (opt_id opt) (now w)) (currentOptions (self w)) = false ->
  snd (removeOption (now w) (snd (addOption label raw w))) = tick w (self w).
Proof.
  intros Hlabel Hfresh. unfold addOption. rewrite Hlabel. cbn [negb].
  destruct w as [[cs ps ms os] c r]. unfold now, tick in *.
  cbn [self currentOptions clock reads] in *.
  cbn. rewrite filter_app. cbn [filter opt_id]. rewrite strict_eq_int. cbn [negb].
  rewrite app_nil_r.
  now rewrite (filter_out_none (fun opt => strict_eq (opt_id opt) (JNum (int (c r)))) os Hfresh).
Qed.

Lemma addOption_then_removeOption_witness :
  currentOptions (self (snd (addOption "Small" (int 1) (at_time 30 composing))))
  = [option_ 7 "Large";
     {| opt_id := num 30; opt_label := JStr "Small"; opt_value := num 1 |}]
  /\ snd (removeOption (num 30) (snd (addOption "Small" (int 1) (at_time 30 composing))))
     = tick (at_time 30 composing) composing.
Proof.
  split; [reflexivity |].
  apply (addOption_then_removeOption "Small" (int 1) (at_time 30 composing)); reflexivity.
Defined.

Lemma saveModifier_run (f : modifier_form) (w : world) :
  modifier_form_passes f = true ->
  currentOptions (self w) <> [] ->
  saveModifier f w
  = (Normal (showToast Msg_modifier_saved success),
     tick w (self (committed w (modifiers (self w)
                                ++ [modifier_of_form (now w) f (currentOptions (self w))])
                             []))).
Proof.
  unfold modifier_form_passes. intros H Hbuffer.
  apply andb_true_iff in H. destruct H as [H Hmin].
  apply andb_true_iff in H. destruct H as [Hp Hn].
  apply negb_true_iff in Hmin.
  unfold saveModifier. rewrite Hp, Hn, Hmin. cbn [negb].
  unfold bind at 1. unfold this at 1.
  destruct (currentOptions (self w)) as [| o os] eqn:E; [congruence |].
  reflexivity.
Qed.

Lemma form_refused (f : modifier_form) (buffer : list MenuOption) :
  modifier_form_passes f = false \/ buffer = [] ->
  modifier_form_after f buffer = f.
Proof.
  unfold modifier_form_after. intros [-> | ->]; [reflexivity |].
  now rewrite andb_false_r.
Qed.

Lemma updateModifier_refuses (id : jsval) (f : modifier_form) (w : world) :
  modifier_form_passes f = false \/ currentOptions (self w) = [] ->
  exists m, In m validation_messages
            /\ saveModifier f w = (Normal (showToast m error), w)
            /\ updateModifier id f w = (Normal (showToast m error), w).
Proof.
  unfold modifier_form_passes, saveModifier, updateModifier, validation_messages.
  intros H.
  destruct (num_truthy (mf_productId f)); cbn [negb andb] in *;
    [| exists Msg_select_product; repeat split; simpl; tauto].
  destruct (str_truthy (mf_name f)); cbn [negb andb] in *;
    [| exists Msg_modifier_name_missing; repeat split; simpl; tauto].
  destruct (num_gt (mf_min f) (mf_max f)); cbn [negb] in *;
    [exists Msg_min_gt_max; repeat split; simpl; tauto |].
  destruct H as [H | H]; [discriminate |].
  exists Msg_no_options. unfold bind, this. rewrite H.
  repeat split. simpl. tauto.
Qed.

(** X11.  A form that passes the field checks, saved over a non-empty
    buffer, appends a modifier whose options are the buffer's options in
    their order, and empties the buffer; whatever form is saved next is
    refused with a validation error and changes nothing. *)
Theorem saveModifier_takes_the_buffer (f f' : modifier_form) (w : world) :
  modifier_form_passes f = true ->
  currentOptions (self w) <> [] ->
  let w' := tick w (self (committed w
                            (modifiers (self w)
                             ++ [modifier_of_form (now w) f (currentOptions (self w))])
                            [])) in
  snd (saveModifier f w) = w'
  /\ exists m, In m validation_messages
               /\ saveModifier f' w' = (Normal (showToast m error), w').
Proof.
  intros Hf Hbuffer w'. split; [now rewrite saveModifier_run |].
  destruct (updateModifier_refuses JUndefined f' w' (or_intror eq_refl))
    as [m (Hin & Hsave & _)].
  now exists m.
Qed.

Lemma saveModifier_takes_the_buffer_witness :
  modifiers (after (saveModifier size_form) (at_time 30 composing))
  = (modifiers two_categories
     ++ [modifier_of_form (num 30) size_form [option_ 7 "Large"]])%list
  /\ currentOptions (after (saveModifier size_form) (at_time 30 composing)) = []
  /\ exists m, fst (saveModifier size_form (snd (saveModifier size_form (at_time 30 composing))))
               = Normal (showToast m error).
Proof.
  destruct (saveModifier_takes_the_buffer size_form size_form (at_time 30 composing)
              eq_refl ltac:(discriminate)) as [Hfirst [m [_ Hsecond]]].
  unfold after. rewrite Hfirst. repeat split.
  exists m. now rewrite Hsecond.
Defined.

(** X12.  The check [min > max] lets a form through whose min or max is
    [NaN] (the field was left empty): with a product, a name and a
    non-empty buffer the modifier is committed with that [NaN]. *)
Theorem saveModifier_accepts_missing_bounds (f : modifier_form) (w : world) :
  num_truthy (mf_productId f) = true ->
  str_truthy (mf_name f) = true ->
  mf_min f = NaN \/ mf_max f = NaN ->
  currentOptions (self w) <> [] ->
  snd (saveModifier f w)
  = tick w (self (committed w
                    (modifiers (self w)
                     ++ [modifier_of_form (now w) f (currentOptions (self w))])
                    [])).
Proof.
  intros Hp Hn Hnan Hbuffer. rewrite saveModifier_run; [reflexivity | | exact Hbuffer].
  unfold modifier_form_passes. rewrite Hp, Hn. cbn [andb].
  destruct Hnan as [-> | ->]; [destruct (mf_max f) |]; reflexivity.
Qed.

Lemma saveModifier_accepts_missing_bounds_witness :
  map mod_min (modifiers (after (saveModifier no_min_form) (at_time 30 composing)))
  = [num 0; num 0; JNum NaN].
Proof.
  unfold after.
  rewrite (saveModifier_accepts_missing_bounds no_min_form (at_time 30 composing)
             eq_refl eq_refl (or_introl eq_refl) ltac:(discriminate)).
  reflexivity.
Defined.

(** X13.  A click on the modifier button in edit mode never updates the
    edited modifier.  If the form passes the field checks and the buffer
    holds options, [saveModifier] commits the form as a new modifier under a
    fresh id, resets the form and empties the buffer, and the update handler
    then refuses the form without a product.  Otherwise both refuse with the
    same validation error and nothing changes. *)
Theorem edit_click_never_updates_modifier (id : jsval) (f : modifier_form) (w : world) :
  (modifier_form_passes f = true ->
   currentOptions (self w) <> [] ->
   click_update_modifier id f w
   = (Normal (showToast Msg_select_product error),
      tick w (self (committed w
                      (modifiers (self w)
                       ++ [modifier_of_form (now w) f (currentOptions (self w))])
                      []))))
  /\ (modifier_form_passes f = false \/ currentOptions (self w) = [] ->
      exists m, In m validation_messages
                /\ click_update_modifier id f w = (Normal (showToast m error), w)).
Proof.
  unfold click_update_modifier. split.
  - intros Hf Hbuffer. rewrite (saveModifier_run f w Hf Hbuffer).
    unfold modifier_form_after. rewrite Hf.
    destruct (currentOptions (self w)); [congruence | reflexivity].
  - intros H. rewrite (form_refused f _ H).
    destruct (updateModifier_refuses id f w H) as [m (Hin & Hsave & Hupdate)].
    exists m. split; [exact Hin |]. now rewrite Hsave.
Qed.

(** X13 at work, modifier 100 of [two_categories] being edited with one
    option in the buffer: the click with [size_form] appends a third
    modifier and leaves modifier 100 as it was; with min 2 and max 1
    ([spice_form]) nothing changes. *)
Lemma edit_click_never_updates_modifier_witness :
  run (click_update_modifier (num 100) size_form) (at_time 30 composing)
  = (Normal (showToast Msg_select_product error),
     with_modifiers two_categories
       [modifier 100 10 "Spice" 0 1; modifier 200 20 "Size" 0 1;
        modifier_of_form (num 30) size_form [option_ 7 "Large"]])
  /\ run (click_update_modifier (num 100) spice_form) (at_time 30 composing)
     = (Normal (showToast Msg_min_gt_max error), composing).
Proof.
  destruct (edit_click_never_updates_modifier (num 100) size_form (at_time 30 composing))
    as [Hpasses _].
  unfold run. rewrite (Hpasses eq_refl ltac:(discriminate)).
  split; reflexivity.
Defined.

(** ** The preview and the export *)

Lemma groupedData_selects (s : MenuBuilder) :
  groupedData s
  = map (fun c => (c, map (fun p => (p, modifiers_of s p)) (products_of s c)))
        (filter (has_products s) (categories s)).
Proof.
  unfold groupedData. induction (categories s) as [| c cs IH]; cbn [map filter]; [reflexivity |].
  cbn [snd]. rewrite length_map.
  fold (products_of s c). rewrite has_products_nonempty.
  destruct (List.length (products_of s c)) as [| n] eqn:E;
    cbn [Nat.ltb Nat.leb Nat.eqb negb map].
  - exact IH.
  - f_equal. exact IH.
Qed.

Lemma group_entry_of_category (s : MenuBuilder) (c : Category) :
  group_entry (c, map (fun p => (p, modifiers_of s p)) (products_of s c))
  = spec_category_entry s c.
Proof.
  unfold group_entry, spec_category_entry. cbn [fst snd]. now rewrite map_map.
Qed.

(** X14.  The preview and the export select and nest alike: the [menu]
    array of [generateJSON] is the list of the preview's groups, each written
    as an entry, and the preview says "no products" exactly when there are
    categories and the menu array is empty. *)
Theorem preview_groups_are_the_exported_menu (created : string) (s : MenuBuilder) :
  let menu := elems_of (field (generateJSON created s) "menu") in
  menu = map group_entry (groupedData s)
  /\ updatePreview s
     = if (List.length (categories s) =? 0)%nat then No_data
       else if (List.length menu =? 0)%nat then No_products
       else Groups (groupedData s).
Proof.
  cbv zeta. rewrite generateJSON_menu. cbn [elems_of].
  assert (H : spec_menu s = map group_entry (groupedData s)).
  { rewrite groupedData_selects, map_map. unfold spec_menu.
    apply map_ext. intros c. now rewrite group_entry_of_category. }
  split; [exact H |].
  unfold updatePreview. rewrite H, length_map. reflexivity.
Qed.

Lemma strict_eq_sym (a b : jsval) : strict_eq a b = strict_eq b a.
Proof.
  destruct (strict_eq a b) eqn:E.
  - pose proof (strict_eq_true _ _ E) as H. subst b. now rewrite E.
  - destruct (strict_eq b a) eqn:E'; [| reflexivity].
    pose proof (strict_eq_true _ _ E') as H. subst b. congruence.
Qed.

Lemma list_sum_plus {A} (f g : A -> nat) (l : list A) :
  (list_sum (map (fun x => f x + g x) l) = list_sum (map f l) + list_sum (map g l))%nat.
Proof. induction l as [| x l IH]; simpl; [reflexivity | rewrite IH; lia]. Qed.

Lemma list_sum_hits {A} (hit : A -> bool) (k : nat) (l : list A) :
  (list_sum (map (fun x => if hit x then k else 0) l) = List.length (filter hit l) * k)%nat.
Proof.
  induction l as [| x l IH]; simpl; [reflexivity |].
  destruct (hit x); simpl; rewrite IH; lia.
Qed.

(** Counting by rows or by columns. *)
Lemma sum_by_group {A B} (m : A -> B -> bool) (g : B -> nat) (cs : list A) (ps : list B) :
  (list_sum (map (fun c => list_sum (map g (filter (m c) ps))) cs)
   = list_sum (map (fun p => List.length (filter (fun c => m c p) cs) * g p) ps))%nat.
Proof.
  induction ps as [| p ps IH].
  - simpl. induction cs as [| c cs IHc]; simpl; [reflexivity | exact IHc].
  - change (list_sum (map (fun p0 => (List.length (filter (fun c => m c p0) cs) * g p0)%nat)
                          (p :: ps)))
      with ((List.length (filter (fun c => m c p) cs) * g p
             + list_sum (map (fun p0 => List.length (filter (fun c => m c p0) cs) * g p0) ps))%nat).
    rewrite <- IH, <- list_sum_hits, <- list_sum_plus. f_equal.
    apply map_ext. intros c. simpl. destruct (m c p); reflexivity.
Qed.

Lemma one_match (x : jsval) (ids : list jsval) :
  distinct_ids ids = true ->
  existsb (strict_eq x) ids = true ->
  List.length (filter (strict_eq x) ids) = 1%nat.
Proof.
  induction ids as [| i ids IH]; cbn [distinct_ids existsb filter]; [discriminate |].
  intros Hd Hex. apply andb_true_iff in Hd. destruct Hd as [Hi Hd].
  apply negb_true_iff in Hi.
  destruct (strict_eq x i) eqn:E.
  - apply strict_eq_true in E. subst i. cbn [List.length]. f_equal.
    replace (filter (strict_eq x) ids) with (@nil jsval); [reflexivity |].
    symmetry. clear - Hi. induction ids as [| j ids IH]; [reflexivity |].
    cbn [existsb filter] in *. apply orb_false_iff in Hi. destruct Hi as [Hj Hi].
    rewrite Hj. now apply IH.
  - cbn [orb] in Hex. now apply IH.
Qed.

Lemma filter_by_id {A} (h : A -> jsval) (x : jsval) (l : list A) :
  List.length (filter (fun a => strict_eq x (h a)) l)
  = List.length (filter (strict_eq x) (map h l)).
Proof.
  induction l as [| a l IH]; cbn [map filter]; [reflexivity |].
  destruct (strict_eq x (h a)); cbn [List.length]; now rewrite IH.
Qed.

Lemma existsb_by_id {A} (h : A -> jsval) (x : jsval) (l : list A) :
  existsb (fun a => strict_eq (h a) x) l = existsb (strict_eq x) (map h l).
Proof.
  induction l as [| a l IH]; cbn [map existsb]; [reflexivity |].
  now rewrite IH, strict_eq_sym.
Qed.

Lemma list_sum_same {A} (f g : A -> nat) (l : list A) :
  (forall x, In x l -> f x = g x) -> list_sum (map f l) = list_sum (map g l).
Proof.
  intro H. induction l as [| x l IH]; [reflexivity |].
  simpl. rewrite (H x (or_introl eq_refl)), IH; [reflexivity |].
  intros y Hy. apply H. now right.
Qed.

Lemma list_sum_ones {A} (l : list A) : list_sum (map (fun _ => 1%nat) l) = List.length l.
Proof. induction l as [| x l IH]; simpl; [reflexivity | now rewrite IH]. Qed.

Lemma list_sum_skip_zero {A} (keep : A -> bool) (f : A -> nat) (l : list A) :
  (forall x, keep x = false -> f x = 0%nat) ->
  list_sum (map f (filter keep l)) = list_sum (map f l).
Proof.
  intro H. induction l as [| x l IH]; [reflexivity |].
  simpl. destruct (keep x) eqn:E; simpl; [now rewrite IH |].
  now rewrite (H x E), IH.
Qed.

(** Weighted count of the products, each under the categories that match
    it: once each when the ids are distinct and every product has its
    category. *)
Lemma products_counted_once (s : MenuBuilder) (g : Product -> nat) :
  products_refer s = true ->
  distinct_ids (map cat_id (categories s)) = true ->
  list_sum (map (fun c => list_sum (map g (products_of s c))) (categories s))
  = list_sum (map g (products s)).
Proof.
  intros Hp Hd. unfold products_of.
  rewrite (sum_by_group (fun c p => strict_eq (prod_categoryId p) (cat_id c))).
  apply list_sum_same. intros p Hin.
  rewrite (filter_by_id cat_id), one_match; [lia | exact Hd |].
  rewrite <- existsb_by_id. exact (forallb_in _ _ _ Hp Hin).
Qed.

Lemma modifiers_counted_once (s : MenuBuilder) :
  modifiers_refer s = true ->
  distinct_ids (map prod_id (products s)) = true ->
  list_sum (map (fun p => List.length (modifiers_of s p)) (products s))
  = List.length (modifiers s).
Proof.
  intros Hm Hd. unfold modifiers_of.
  rewrite <- (list_sum_ones (modifiers s)).
  rewrite <- (list_sum_same (fun m => (List.length
                                         (filter (fun p => strict_eq (mod_productId m) (prod_id p))
                                                 (products s)) * 1)%nat)
                            (fun _ => 1%nat)).
  - rewrite <- (sum_by_group (fun p m => strict_eq (mod_productId m) (prod_id p))
                             (fun _ => 1%nat)).
    apply list_sum_same. intros p _. now rewrite list_sum_ones.
  - intros m Hin.
    rewrite (filter_by_id prod_id), one_match; [lia | exact Hd |].
    rewrite <- existsb_by_id. exact (forallb_in _ _ _ Hm Hin).
Qed.

Lemma nested_products_spec (s : MenuBuilder) :
  nested_products (spec_menu s)
  = list_sum (map (fun c => List.length (products_of s c)) (categories s)).
Proof.
  unfold nested_products, spec_menu. rewrite map_map.
  cbn [spec_category_entry field lookup String.eqb Ascii.eqb Bool.eqb elems_of].
  rewrite (list_sum_same _ (fun c => List.length (products_of s c)))
    by (intros c _; apply length_map).
  apply list_sum_skip_zero. intros c Hc.
  rewrite has_products_nonempty in Hc. apply negb_false_iff in Hc.
  now apply Nat.eqb_eq in Hc.
Qed.

Lemma nested_modifiers_spec (s : MenuBuilder) :
  nested_modifiers (spec_menu s)
  = list_sum (map (fun c => list_sum (map (fun p => List.length (modifiers_of s p))
                                          (products_of s c)))
                  (categories s)).
Proof.
  unfold nested_modifiers, spec_menu. rewrite map_map.
  cbn [spec_category_entry field lookup String.eqb Ascii.eqb Bool.eqb elems_of].
  rewrite (list_sum_same _ (fun c => list_sum (map (fun p => List.length (modifiers_of s p))
                                                   (products_of s c)))).
  - apply list_sum_skip_zero. intros c Hc.
    rewrite has_products_nonempty in Hc. apply negb_false_iff in Hc.
    apply Nat.eqb_eq in Hc. destruct (products_of s c); [reflexivity | discriminate].
  - intros c _. rewrite map_map. apply list_sum_same. intros p _.
    cbn [spec_product_entry field lookup String.eqb Ascii.eqb Bool.eqb elems_of].
    apply length_map.
Qed.

(** X15.  On a consistent store whose category ids are pairwise different
    and whose product ids are pairwise different, the export leaves nothing
    out and writes nothing twice: the products nested in the menu array are
    as many as the products table holds, and likewise the modifiers, so
    that [totalProducts] and [totalModifiers] of the metadata block are the
    numbers of products and modifiers nested in the menu array. *)
Theorem export_nests_every_record_once (created : string) (s : MenuBuilder) :
  referential_integrity s = true ->
  distinct_ids (map cat_id (categories s)) = true ->
  distinct_ids (map prod_id (products s)) = true ->
  let menu := elems_of (field (generateJSON created s) "menu") in
  let metadata := field (generateJSON created s) "metadata" in
  let number := fun n : nat => JNum (Fin (Q2Qc (inject_Z (Z.of_nat n)))) in
  nested_products menu = List.length (products s)
  /\ nested_modifiers menu = List.length (modifiers s)
  /\ field metadata "totalProducts" = number (nested_products menu)
  /\ field metadata "totalModifiers" = number (nested_modifiers menu).
Proof.
  intros HRI Hc Hp. apply RI_split in HRI. destruct HRI as [Hpr Hmr].
  cbv zeta. rewrite generateJSON_menu. cbn [elems_of].
  assert (Hproducts : nested_products (spec_menu s) = List.length (products s)).
  { rewrite nested_products_spec.
    rewrite <- (list_sum_ones (products s)).
    rewrite <- (products_counted_once s (fun _ => 1%nat) Hpr Hc).
    apply list_sum_same. intros c _. now rewrite list_sum_ones. }
  assert (Hmodifiers : nested_modifiers (spec_menu s) = List.length (modifiers s)).
  { rewrite nested_modifiers_spec.
    rewrite (products_counted_once s _ Hpr Hc).
    now apply modifiers_counted_once. }
  rewrite Hproducts, Hmodifiers. repeat split.
Qed.

Lemma export_nests_every_record_once_witness :
  let menu := elems_of (field (generateJSON "2025-01-01" two_categories) "menu") in
  let metadata := field (generateJSON "2025-01-01" two_categories) "metadata" in
  nested_products menu = 2%nat
  /\ nested_modifiers menu = 2%nat
  /\ field metadata "totalProducts" = num 2
  /\ field metadata "totalModifiers" = num 2.
Proof.
  apply (export_nests_every_record_once "2025-01-01" two_categories); reflexivity.
Defined.

(** ** Import replaces, and leaves the buffer alone *)

(** X16.  Import replaces and never merges: for a document with a [menu]
    array, the toast and the store that [importJSON] leaves do not depend on
    what the three tables held before; when the array is empty the three
    tables end up empty and the success toast is shown. *)
Theorem importJSON_replaces_the_tables (jsonData : jsval) (w : world)
        (cs : list Category) (ps : list Product) (ms : list Modifier) :
  isArray (field jsonData "menu") = true ->
  importJSON (Document jsonData) (tables w cs ps ms) = importJSON (Document jsonData) w
  /\ (field jsonData "menu" = JArr [] ->
      importJSON (Document jsonData) w
      = (Normal (showToast Msg_import_done success), tables w [] [] [])).
Proof.
  intro H. destruct jsonData as [| | b | n | str | l | props]; try discriminate H.
  cbn [field] in H.
  unfold importJSON, try_catch, JSON_parse. rewrite !bind_ret_l.
  cbn [prop]. rewrite !bind_ret_l. cbn [field].
  destruct (lookup "menu" props) as [| | b | n | str | l | props'] eqn:E; try discriminate H.
  cbn [truthy isArray negb orb elems_of]. split; [reflexivity |].
  intro Hl. injection Hl as ->. reflexivity.
Qed.

Lemma importJSON_replaces_the_tables_witness :
  importJSON (Document doc_taco) (at_time 30 two_categories)
  = importJSON (Document doc_taco) (at_time 30 empty_store)
  /\ run (importJSON (Document doc_empty_menu)) (at_time 30 two_categories)
     = (Normal (showToast Msg_import_done success), empty_store).
Proof.
  split.
  - apply (importJSON_replaces_the_tables doc_taco (at_time 30 empty_store)
             (categories two_categories) (products two_categories)
             (modifiers two_categories) eq_refl).
  - unfold run.
    rewrite (proj2 (importJSON_replaces_the_tables doc_empty_menu (at_time 30 two_categories)
                      [] [] [] eq_refl) eq_refl).
    reflexivity.
Defined.

Lemma import_modifier_frames (product modifier : jsval) I :
  push_stable I -> keeps I (import_modifier product modifier).
Proof.
  intros (_ & _ & Hm). unfold import_modifier.
  do 13 (eapply keeps_bind; [keep | intros ?]).
  eapply keeps_bind; [apply import_options_keeps | intros imported].
  apply triple_push_modifier. intros s Hs. now apply Hm.
Qed.

Lemma import_product_frames (category product : jsval) I :
  push_stable I -> keeps I (import_product category product).
Proof.
  intros HI. pose proof HI as (_ & Hp & _). unfold import_product.
  do 10 (eapply keeps_bind; [keep | intros ?]).
  eapply keeps_bind; [apply triple_push_product; intros s Hs; now apply Hp | intros u].
  eapply keeps_bind; [apply keeps_prop | intros modifiers_].
  destruct (truthy modifiers_ && isArray modifiers_); [| apply keeps_ret].
  apply keeps_forEach. intros modifier _. now apply import_modifier_frames.
Qed.

Lemma import_category_frames (category : jsval) I :
  push_stable I -> keeps I (import_category category).
Proof.
  intros HI. pose proof HI as (Hc & _ & _). unfold import_category.
  do 3 (eapply keeps_bind; [keep | intros ?]).
  eapply keeps_bind; [apply triple_push_category; intros s Hs; now apply Hc | intros u].
  eapply keeps_bind; [apply keeps_prop | intros products_].
  destruct (truthy products_ && isArray products_); [| apply keeps_ret].
  apply keeps_forEach. intros product _. now apply import_product_frames.
Qed.

(** X17.  [importJSON] never touches the option buffer: whatever the text
    and however the import ends, the options being composed are still there
    afterwards. *)
Theorem importJSON_leaves_the_buffer (content : import_field) (w : world) :
  currentOptions (after (importJSON content) w) = currentOptions (self w).
Proof.
  set (I := fun s => currentOptions s = currentOptions (self w)).
  assert (HI : push_stable I) by (unfold push_stable, I; now repeat split).
  apply (triple_after (importJSON content) I I w); [| reflexivity].
  unfold importJSON. destruct content as [| | jsonData]; [apply keeps_ret | |].
  - apply triple_try_catch with (E' := I); [now apply triple_throw |].
    intros e. apply keeps_ret.
  - apply triple_try_catch with (E' := I); [| intros e; apply keeps_ret].
    cbn [JSON_parse]. apply triple_bind_ret.
    eapply keeps_bind; [apply keeps_prop | intros menu].
    destruct (negb (truthy menu) || negb (isArray menu)); [apply keeps_ret |].
    do 3 (eapply keeps_bind; [apply triple_modify; intros s Hs; exact Hs | intros ?]).
    eapply keeps_bind; [| intros u; apply keeps_ret].
    apply keeps_forEach. intros category _. now apply import_category_frames.
Qed.

(** ** The defaults of import *)

Lemma triple_or_default (v d : jsval) P :
  strict_eq d d = true ->
  triple P (or_else v (ret d)) (fun a s => defaulted d a = true /\ P s) P.
Proof.
  intros Hd w Hw. unfold or_else, defaulted. destruct (truthy v) eqn:Hv; cbn.
  - now rewrite Hv.
  - rewrite Hd. split; [apply orb_true_r | exact Hw].
Qed.

Lemma triple_or_truthy (v d : jsval) P :
  truthy d = true ->
  triple P (or_else v (ret d)) (fun a s => truthy a = true /\ P s) P.
Proof.
  intros Hd w Hw. unfold or_else. destruct (truthy v) eqn:Hv; cbn; auto.
Qed.

Lemma triple_mapM_all {A B} (l : list A) (f : A -> M B) (ok : B -> bool) P :
  (forall x, triple P (f x) (fun y s => ok y = true /\ P s) P) ->
  triple P (mapM l f) (fun ys s => forallb ok ys = true /\ P s) P.
Proof.
  intro H. induction l as [| x l IH]; cbn [mapM].
  - apply triple_ret. now split.
  - eapply triple_bind; [apply H |]. intros y. apply triple_pure. intros Hy.
    eapply triple_bind; [apply IH |]. intros ys. apply triple_pure. intros Hys.
    apply triple_ret. intros s Hs. split; [| exact Hs].
    cbn [forallb]. now rewrite Hy, Hys.
Qed.

Lemma import_option_defaulted (option : jsval) P :
  triple P (import_option option) (fun o s => option_defaulted o = true /\ P s) P.
Proof.
  unfold import_option.
  do 4 (eapply triple_bind; [keep | intros ?]).
  eapply triple_bind; [apply triple_or_default; reflexivity | intros value].
  apply triple_pure. intros Hv. apply triple_ret. intros s Hs. now split.
Qed.

Lemma import_options_defaulted (options : jsval) P :
  triple P (if truthy options && isArray options
            then mapM (elems_of options) import_option
            else ret [])
         (fun os s => forallb option_defaulted os = true /\ P s) P.
Proof.
  destruct (truthy options && isArray options).
  - apply triple_mapM_all. intros x. apply import_option_defaulted.
  - apply triple_ret. now split.
Qed.

Lemma defaults_split (s : MenuBuilder) :
  defaults_hold s <->
  forallb product_defaulted (products s) = true
  /\ forallb modifier_defaulted (modifiers s) = true.
Proof. unfold defaults_hold, defaults_applied. apply andb_true_iff. Qed.

Lemma import_modifier_defaults (product modifier : jsval) :
  keeps defaults_hold (import_modifier product modifier).
Proof.
  unfold import_modifier.
  do 5 (eapply keeps_bind; [keep | intros ?]).
  eapply triple_bind; [apply triple_or_default; reflexivity | intros mn].
  apply triple_pure. intros Hmin.
  eapply keeps_bind; [keep | intros ?].
  eapply triple_bind; [apply triple_or_truthy; reflexivity | intros mx].
  apply triple_pure. intros Hmax.
  eapply keeps_bind; [keep | intros ?].
  eapply triple_bind; [apply triple_or_truthy; reflexivity | intros type].
  apply triple_pure. intros Htype.
  eapply keeps_bind; [keep | intros ?].
  eapply triple_bind; [apply triple_or_truthy; reflexivity | intros position].
  apply triple_pure. intros Hposition.
  eapply keeps_bind; [keep | intros options].
  eapply triple_bind; [apply import_options_defaulted | intros imported].
  apply triple_pure. intros Himported.
  apply triple_push_modifier. intros s Hs.
  apply defaults_split in Hs. destruct Hs as [Hp Hm]. apply defaults_split.
  split; [exact Hp |]. cbn [with_modifiers modifiers].
  apply forallb_snoc; [exact Hm |].
  unfold modifier_defaulted.
  cbn [mod_min mod_max mod_type mod_position mod_options]. unfold num.
  now rewrite Hmin, Hmax, Htype, Hposition, Himported.
Qed.

Lemma import_product_defaults (category product : jsval) :
  keeps defaults_hold (import_product category product).
Proof.
  unfold import_product.
  do 5 (eapply keeps_bind; [keep | intros ?]).
  eapply triple_bind; [apply triple_or_default; reflexivity | intros description].
  apply triple_pure. intros Hdescription.
  eapply keeps_bind; [keep | intros ?].
  eapply triple_bind; [apply triple_or_default; reflexivity | intros price].
  apply triple_pure. intros Hprice.
  eapply keeps_bind; [keep | intros ?].
  eapply triple_bind; [apply triple_or_default; reflexivity | intros image].
  apply triple_pure. intros Himage.
  eapply keeps_bind.
  - apply triple_push_product. intros s Hs.
    apply defaults_split in Hs. destruct Hs as [Hp Hm]. apply defaults_split.
    split; [| exact Hm]. cbn [with_products products].
    apply forallb_snoc; [exact Hp |].
    unfold product_defaulted. cbn [prod_description prod_price prod_image]. unfold num.
    now rewrite Hdescription, Hprice, Himage.
  - intros u. eapply keeps_bind; [apply keeps_prop | intros modifiers_].
    destruct (truthy modifiers_ && isArray modifiers_); [| apply keeps_ret].
    apply keeps_forEach. intros modifier _. apply import_modifier_defaults.
Qed.

Lemma import_category_defaults (category : jsval) :
  keeps defaults_hold (import_category category).
Proof.
  unfold import_category.
  do 3 (eapply keeps_bind; [keep | intros ?]).
  eapply keeps_bind; [apply triple_push_category; intros s Hs; exact Hs | intros u].
  eapply keeps_bind; [apply keeps_prop | intros products_].
  destruct (truthy products_ && isArray products_); [| apply keeps_ret].
  apply keeps_forEach. intros product _. apply import_product_defaults.
Qed.

(** X18.  Whatever a document with a [menu] array holds, and however the
    import ends, the records it leaves have no falsy field where import has
    a default: every product's description and image are truthy or [''], its
    price truthy or 0; every modifier's min is truthy or 0 and its max, type
    and position are truthy; every option's value is truthy or 0.  A max of
    0 can therefore not be imported. *)
Theorem importJSON_applies_defaults (jsonData : jsval) (w : world) :
  isArray (field jsonData "menu") = true ->
  defaults_applied (after (importJSON (Document jsonData)) w) = true.
Proof.
  intro H.
  apply (triple_after (importJSON (Document jsonData)) (fun _ => True) defaults_hold w);
    [| exact I].
  unfold importJSON.
  apply triple_try_catch with (E' := defaults_hold); [| intros e; apply keeps_ret].
  cbn [JSON_parse]. apply triple_bind_ret.
  destruct jsonData as [| | b | n | str | l | props]; try discriminate H.
  cbn [prop]. apply triple_bind_ret. cbn [field] in H. rewrite H.
  destruct (lookup "menu" props) as [| | b | n | str | l | props'] eqn:E; try discriminate H.
  cbn [truthy negb orb elems_of].
  eapply triple_bind with (R := fun _ _ => True); [now apply triple_modify | intros u1].
  eapply triple_bind with (R := fun _ s => products s = []);
    [apply triple_modify; reflexivity | intros u2].
  eapply triple_bind with (R := fun _ => defaults_hold).
  - apply triple_modify. intros s Hs. apply defaults_split.
    cbn [products modifiers]. rewrite Hs. now split.
  - intros u3. eapply keeps_bind; [| intros u4; apply keeps_ret].
    apply keeps_forEach. intros category _. apply import_category_defaults.
Qed.

Lemma importJSON_applies_defaults_witness :
  defaults_applied (after (importJSON (Document doc_falsy_fields)) (at_time 30 zero_max))
  = true
  /\ map mod_max (modifiers (after (importJSON (Document doc_falsy_fields))
                                   (at_time 30 zero_max)))
     = [num 1].
Proof.
  split; [| reflexivity].
  apply (importJSON_applies_defaults doc_falsy_fields (at_time 30 zero_max)). reflexivity.
Defined.

(** ** Persistence *)

Lemma keys_within_strip (allowed : list string) (ps : list (string * jsval)) :
  keys_within allowed ps = true -> keys_within allowed (strip ps) = true.
Proof.
  unfold keys_within. induction ps as [| [k v] ps IH]; [reflexivity |].
  cbn [forallb fst]. intro H. apply andb_true_iff in H. destruct H as [Hk Hps].
  destruct v; cbn [strip forallb fst]; try rewrite Hk; cbn [andb]; now apply IH.
Qed.

Lemma all_some_map {A B} (enc : A -> jsval) (dec : jsval -> option B) (h : A -> B)
      (l : list A) :
  (forall x, dec (JSON_roundtrip (enc x)) = Some (h x)) ->
  all_some (map dec (map JSON_roundtrip (map enc l))) = Some (map h l).
Proof.
  intro H. induction l as [| x l IH]; cbn [map all_some]; [reflexivity |].
  now rewrite H, IH.
Qed.

Lemma as_category_stored (c : Category) :
  as_category (JSON_roundtrip (category_object c)) = Some (stored_category c).
Proof.
  unfold category_object. rewrite JSON_roundtrip_obj. cbn [as_category].
  rewrite keys_within_strip by reflexivity.
  rewrite !lookup_strip by reflexivity. reflexivity.
Qed.

Lemma as_product_stored (p : Product) :
  as_product (JSON_roundtrip (product_object p)) = Some (stored_product p).
Proof.
  unfold product_object. rewrite JSON_roundtrip_obj. cbn [as_product].
  rewrite keys_within_strip by reflexivity.
  rewrite !lookup_strip by reflexivity. reflexivity.
Qed.

Lemma as_option_stored (o : MenuOption) :
  as_option (JSON_roundtrip (option_object o)) = Some (stored_option o).
Proof.
  unfold option_object. rewrite JSON_roundtrip_obj. cbn [as_option].
  rewrite keys_within_strip by reflexivity.
  rewrite !lookup_strip by reflexivity. reflexivity.
Qed.

Lemma as_modifier_stored (m : Modifier) :
  as_modifier (JSON_roundtrip (modifier_object m)) = Some (stored_modifier m).
Proof.
  unfold modifier_object. rewrite JSON_roundtrip_obj. cbn [as_modifier].
  rewrite keys_within_strip by reflexivity.
  rewrite !lookup_strip by reflexivity.
  cbn [lookup String.eqb Ascii.eqb Bool.eqb reread JSON_roundtrip].
  now rewrite (all_some_map option_object as_option stored_option _ as_option_stored).
Qed.

(** What [loadFromLocalStorage] makes of what [saveToLocalStorage] wrote:
    every field as JSON hands it back. *)
Lemma load_what_was_saved (lastUpdated : string) (s : MenuBuilder) (w : world) :
  exists load,
    loadFromLocalStorage (saveToLocalStorage lastUpdated s) = Some load
    /\ load w = (Normal (Some Toast_data_loaded),
                 tables w (map stored_category (categories s))
                        (map stored_product (products s))
                        (map stored_modifier (modifiers s))).
Proof.
  unfold saveToLocalStorage. rewrite JSON_roundtrip_obj.
  cbn [strip JSON_roundtrip loadFromLocalStorage field lookup String.eqb Ascii.eqb Bool.eqb].
  unfold as_table. cbn [truthy].
  rewrite (all_some_map category_object as_category stored_category _ as_category_stored).
  rewrite (all_some_map product_object as_product stored_product _ as_product_stored).
  rewrite (all_some_map modifier_object as_modifier stored_modifier _ as_modifier_stored).
  eexists. split; reflexivity.
Qed.

Lemma map_fixed {A} (h : A -> A) (l : list A) :
  (forall x, In x l -> h x = x) -> map h l = l.
Proof.
  intro H. induction l as [| x l IH]; cbn [map]; [reflexivity |].
  rewrite (H x (or_introl eq_refl)), IH; [reflexivity |].
  intros y Hy. apply H. now right.
Qed.

Lemma stored_option_plain (o : MenuOption) : option_plain o = true -> stored_option o = o.
Proof.
  destruct o as [id label value]. unfold option_plain, stored_option.
  cbn [opt_id opt_label opt_value]. intro H.
  apply andb_true_iff in H. destruct H as [H Hv].
  apply andb_true_iff in H. destruct H as [Hi Hl].
  now rewrite !reread_plain.
Qed.

(** X19.  Saving and loading restores the store: when every field of every
    record is a value that JSON text carries (no [NaN], no infinity, no
    array or object in a field), [loadFromLocalStorage] applied to the item
    that [saveToLocalStorage] wrote leaves the three tables exactly as they
    were saved, whatever they held before; the option buffer is not part of
    the item and stays as it is. *)
Theorem load_restores_what_was_saved (lastUpdated : string) (s : MenuBuilder) (w : world) :
  storable s = true ->
  exists load,
    loadFromLocalStorage (saveToLocalStorage lastUpdated s) = Some load
    /\ snd (load w) = tables w (categories s) (products s) (modifiers s).
Proof.
  intro H. unfold storable in H.
  apply andb_true_iff in H. destruct H as [H Hm].
  apply andb_true_iff in H. destruct H as [Hc Hp].
  destruct (load_what_was_saved lastUpdated s w) as [load [Hload Hrun]].
  exists load. split; [exact Hload |]. rewrite Hrun. cbn [snd]. f_equal. f_equal.
  - apply map_fixed. intros [id name] Hin.
    pose proof (forallb_in _ _ _ Hc Hin) as Hx. cbn [cat_id cat_name] in Hx.
    apply andb_true_iff in Hx. destruct Hx as [Hi Hn].
    unfold stored_category. cbn [cat_id cat_name]. now rewrite !reread_plain.
  - apply map_fixed. intros [id categoryId name description price image] Hin.
    pose proof (forallb_in _ _ _ Hp Hin) as Hx.
    cbn [prod_id prod_categoryId prod_name prod_description prod_price prod_image] in Hx.
    repeat (let H' := fresh "H" in apply andb_true_iff in Hx; destruct Hx as [Hx H']).
    unfold stored_product.
    cbn [prod_id prod_categoryId prod_name prod_description prod_price prod_image].
    now rewrite !reread_plain.
  - apply map_fixed. intros [id productId name mn mx type position options] Hin.
    pose proof (forallb_in _ _ _ Hm Hin) as Hx.
    cbn [mod_id mod_productId mod_name mod_min mod_max mod_type mod_position mod_options]
      in Hx.
    apply andb_true_iff in Hx. destruct Hx as [Hx Hoptions].
    repeat (let H' := fresh "H" in apply andb_true_iff in Hx; destruct Hx as [Hx H']).
    unfold stored_modifier.
    cbn [mod_id mod_productId mod_name mod_min mod_max mod_type mod_position mod_options].
    rewrite !reread_plain by assumption. f_equal.
    apply map_fixed. intros o Ho. apply stored_option_plain.
    exact (forallb_in _ _ _ Hoptions Ho).
Qed.

(** X19 at work: what was saved of [two_categories] is loaded into
    [drinks_composing]; the tables are replaced, the buffer stays. *)
Lemma load_restores_what_was_saved_witness :
  exists load,
    loadFromLocalStorage (saveToLocalStorage "2025-01-01" two_categories) = Some load
    /\ snd (load (at_time 0 drinks_composing)) = at_time 0 composing.
Proof.
  apply (load_restores_what_was_saved "2025-01-01" two_categories (at_time 0 drinks_composing)).
  reflexivity.
Defined.

(** X20.  What JSON does not carry is not restored: a modifier committed
    with an empty min field holds [NaN] (X12), and after saving and loading
    the modifiers table holds it with [null] for a min. *)
Theorem missing_bound_reloads_as_null (lastUpdated : string) (f : modifier_form)
        (id : jsval) (options : list MenuOption) (s : MenuBuilder) (w : world) :
  mf_min f = NaN ->
  In (modifier_of_form id f options) (modifiers s) ->
  exists load m,
    loadFromLocalStorage (saveToLocalStorage lastUpdated s) = Some load
    /\ In m (modifiers (after load w))
    /\ mod_min m = JNull
    /\ mod_name m = JStr (mf_name f).
Proof.
  intros Hmin Hin.
  destruct (load_what_was_saved lastUpdated s w) as [load [Hload Hrun]].
  exists load, (stored_modifier (modifier_of_form id f options)).
  split; [exact Hload |]. unfold after. rewrite Hrun. cbn [snd tables self modifiers].
  split; [now apply in_map |].
  unfold stored_modifier, modifier_of_form. cbn [mod_min mod_name]. rewrite Hmin.
  split; reflexivity.
Qed.

Lemma missing_bound_reloads_as_null_witness :
  exists load m,
    loadFromLocalStorage (saveToLocalStorage "2025-01-01" with_missing_min) = Some load
    /\ In m (modifiers (after load (at_time 0 empty_store)))
    /\ mod_min m = JNull
    /\ mod_name m = JStr "Size".
Proof.
  apply (missing_bound_reloads_as_null "2025-01-01" no_min_form (num 100)
           [option_ 101 "Mild"] with_missing_min (at_time 0 empty_store) eq_refl).
  left. reflexivity.
Defined.

(** ** What the round trip through the export makes of any store *)

Lemma reimport_run (created : string) (s : MenuBuilder) (w : world) :
  fields_survive s = true ->
  reimport created s w
  = (Normal (showToast Msg_import_done success),
     tables w (regrouped_categories s) (regrouped_products s) (regrouped_modifiers s)).
Proof.
  intro H. unfold fields_survive in H.
  apply andb_true_iff in H. destruct H as [H Hm].
  apply andb_true_iff in H. destruct H as [Hc Hp].
  unfold reimport, importJSON, generateJSON.
  apply try_catch_normal. cbn [JSON_parse]. returned.
  rewrite prop_reread by reflexivity.
  cbn [lookup String.eqb Ascii.eqb Bool.eqb reread JSON_roundtrip]. returned.
  cbn [truthy isArray negb orb elems_of].
  rewrite filter_Boolean, map_map.
  do 3 (erewrite bind_run; [| reflexivity]).
  erewrite bind_run;
    [| apply forEach_categories; [now apply forallb_filter | exact Hp | exact Hm]].
  reflexivity.
Qed.

(** X21.  For any store whose fields survive export, JSON and import's
    defaults, importing the text of the export leaves the categories that
    have products, then their products category by category, then the
    modifiers of those products product by product: empty categories,
    products without a listed category and modifiers without an exported
    product are gone, and the rest is regrouped; the option buffer is the
    one the importing store had. *)
Theorem reimport_regroups (created : string) (s : MenuBuilder) (w : world) :
  fields_survive s = true ->
  after (reimport created s) w
  = with_currentOptions (regrouped s) (currentOptions (self w)).
Proof.
  intro H. unfold after. now rewrite (reimport_run created s w H).
Qed.

Lemma reimport_regroups_witness :
  after (reimport "2025-01-01" interleaved) (at_time 0 drinks_composing)
  = with_currentOptions
      (with_products interleaved
         [product 10 1 "Taco"; product 11 1 "Burrito"; product 20 2 "Cola"])
      [option_ 7 "Large"]
  /\ after (reimport "2025-01-01" orphans) (at_time 0 orphans) = empty_store.
Proof.
  split.
  - rewrite (reimport_regroups "2025-01-01" interleaved (at_time 0 drinks_composing) eq_refl).
    reflexivity.
  - rewrite (reimport_regroups "2025-01-01" orphans (at_time 0 orphans) eq_refl).
    reflexivity.
Defined.

(** ** Exporting again after the round trip *)

Lemma distinct_same {A} (h : A -> jsval) (l : list A) (x y : A) :
  distinct_ids (map h l) = true -> In x l -> In y l ->
  strict_eq (h x) (h y) = true -> x = y.
Proof.
  induction l as [| a l IH]; [contradiction |].
  cbn [map distinct_ids]. intros Hd Hx Hy Hxy.
  apply andb_true_iff in Hd. destruct Hd as [Ha Hd]. apply negb_true_iff in Ha.
  assert (Hfresh : forall z, In z l -> strict_eq (h a) (h z) = false).
  { intros z Hz. apply not_true_is_false. intro Hc.
    assert (existsb (strict_eq (h a)) (map h l) = true); [| congruence].
    apply existsb_exists. exists (h z). split; [now apply in_map | exact Hc]. }
  destruct Hx as [-> | Hx], Hy as [-> | Hy].
  - reflexivity.
  - rewrite (Hfresh y Hy) in Hxy. discriminate.
  - rewrite strict_eq_sym, (Hfresh x Hx) in Hxy. discriminate.
  - now apply IH.
Qed.

Lemma distinct_filter {A} (h : A -> jsval) (f : A -> bool) (l : list A) :
  distinct_ids (map h l) = true -> distinct_ids (map h (filter f l)) = true.
Proof.
  induction l as [| a l IH]; [reflexivity |].
  cbn [map distinct_ids filter]. intro Hd.
  apply andb_true_iff in Hd. destruct Hd as [Ha Hd]. apply negb_true_iff in Ha.
  destruct (f a); [| now apply IH].
  cbn [map distinct_ids]. rewrite (IH Hd), andb_true_r. apply negb_true_iff.
  apply not_true_is_false. intro Hc. apply existsb_exists in Hc.
  destruct Hc as [i [Hi Hai]]. apply in_map_iff in Hi. destruct Hi as [z [<- Hz]].
  apply filter_In in Hz. destruct Hz as [Hz _].
  assert (existsb (strict_eq (h a)) (map h l) = true); [| congruence].
  apply existsb_exists. exists (h z). split; [now apply in_map | exact Hai].
Qed.

Lemma distinct_app (l1 l2 : list jsval) :
  distinct_ids l1 = true -> distinct_ids l2 = true ->
  (forall x y, In x l1 -> In y l2 -> strict_eq x y = false) ->
  distinct_ids (l1 ++ l2) = true.
Proof.
  induction l1 as [| a l1 IH]; [auto |].
  cbn [distinct_ids app]. intros H1 H2 Hcross.
  apply andb_true_iff in H1. destruct H1 as [Ha H1].
  rewrite IH; [| exact H1 | exact H2 | intros x y Hx Hy; apply Hcross; [now right | exact Hy]].
  rewrite andb_true_r, existsb_app. apply negb_true_iff in Ha. rewrite Ha. cbn [orb].
  apply negb_true_iff. apply not_true_is_false. intro Hc. apply existsb_exists in Hc.
  destruct Hc as [y [Hy Hay]]. rewrite (Hcross a y (or_introl eq_refl) Hy) in Hay.
  discriminate.
Qed.

Lemma filter_nothing {A} (f : A -> bool) (l : list A) :
  (forall x, In x l -> f x = false) -> filter f l = [].
Proof.
  intro H. induction l as [| x l IH]; [reflexivity |].
  cbn [filter]. rewrite (H x (or_introl eq_refl)). apply IH.
  intros y Hy. apply H. now right.
Qed.

Section Regrouping.
Context {A B : Type} (key : A -> jsval) (ref : B -> jsval) (children : list B).

Lemma kid_refers (a : A) (b : B) : In b (kids key ref children a) -> ref b = key a.
Proof. unfold kids. intro H. apply filter_In in H. destruct H as [_ H]. now apply strict_eq_true. Qed.

Lemma kids_of_others (a : A) (L : list A) :
  (forall a', In a' L -> strict_eq (key a') (key a) = false) ->
  filter (fun b => strict_eq (ref b) (key a)) (flat_map (kids key ref children) L) = [].
Proof.
  intro H. apply filter_nothing. intros b Hb. apply in_flat_map in Hb.
  destruct Hb as [a' [Ha' Hb]]. rewrite (kid_refers a' b Hb). now apply H.
Qed.

(** Selecting a parent's children from the regrouped children gives the
    children it had. *)
Lemma regroup_select (a : A) (L : list A) :
  distinct_ids (map key L) = true -> In a L -> strict_eq (key a) (key a) = true ->
  filter (fun b => strict_eq (ref b) (key a)) (flat_map (kids key ref children) L)
  = kids key ref children a.
Proof.
  intros Hd Ha Hrefl. induction L as [| a0 L IH]; [contradiction |].
  cbn [map distinct_ids] in Hd. apply andb_true_iff in Hd. destruct Hd as [H0 Hd].
  apply negb_true_iff in H0.
  assert (Hfresh : forall z, In z L -> strict_eq (key a0) (key z) = false).
  { intros z Hz. apply not_true_is_false. intro Hc.
    assert (existsb (strict_eq (key a0)) (map key L) = true); [| congruence].
    apply existsb_exists. exists (key z). split; [now apply in_map | exact Hc]. }
  cbn [flat_map]. rewrite filter_app.
  destruct (strict_eq (key a0) (key a)) eqn:E.
  - pose proof (strict_eq_true _ _ E) as Hk.
    rewrite kids_of_others, app_nil_r.
    + unfold kids. rewrite Hk. apply filter_idem.
    + intros a' Ha'. rewrite <- Hk, strict_eq_sym. now apply Hfresh.
  - destruct Ha as [-> | Ha]; [congruence |].
    rewrite (IH Hd Ha).
    rewrite (filter_nothing _ (kids key ref children a0)); [reflexivity |].
    intros b Hb. now rewrite (kid_refers a0 b Hb).
Qed.

(** Regrouping children with distinct ids under parents with distinct keys
    lists no child twice. *)
Lemma regroup_distinct (id : B -> jsval) (L : list A) :
  distinct_ids (map key L) = true -> distinct_ids (map id children) = true ->
  distinct_ids (map id (flat_map (kids key ref children) L)) = true.
Proof.
  intros Hd Hc. induction L as [| a0 L IH]; [reflexivity |].
  cbn [map distinct_ids] in Hd. apply andb_true_iff in Hd. destruct Hd as [H0 Hd].
  apply negb_true_iff in H0.
  cbn [flat_map]. rewrite map_app. apply distinct_app.
  - unfold kids. now apply distinct_filter.
  - now apply IH.
  - intros x y Hx Hy. apply not_true_is_false. intro Hxy.
    apply in_map_iff in Hx. destruct Hx as [b [<- Hb]].
    apply in_map_iff in Hy. destruct Hy as [b' [<- Hb']].
    apply in_flat_map in Hb'. destruct Hb' as [a' [Ha' Hb']].
    assert (Heq : b = b').
    { apply (distinct_same id children); [exact Hc | | | exact Hxy].
      - unfold kids in Hb. apply filter_In in Hb. now destruct Hb.
      - unfold kids in Hb'. apply filter_In in Hb'. now destruct Hb'. }
    subst b'.
    pose proof (kid_refers a0 b Hb) as H1. pose proof (kid_refers a' b Hb') as H2.
    unfold kids in Hb. apply filter_In in Hb. destruct Hb as [_ Hb].
    rewrite H2 in Hb.
    assert (existsb (strict_eq (key a0)) (map key L) = true); [| congruence].
    apply existsb_exists. exists (key a'). split; [now apply in_map |].
    now rewrite strict_eq_sym.
Qed.
End Regrouping.

Lemma spec_menu_regrouped (s s' : MenuBuilder) :
  categories s' = regrouped_categories s ->
  products s' = regrouped_products s ->
  modifiers s' = regrouped_modifiers s ->
  distinct_ids (map cat_id (categories s)) = true ->
  distinct_ids (map prod_id (products s)) = true ->
  spec_menu s' = spec_menu s.
Proof.
  intros Hcs Hps Hms Hdc Hdp.
  assert (Hdc' : distinct_ids (map cat_id (regrouped_categories s)) = true)
    by (unfold regrouped_categories; now apply distinct_filter).
  assert (Hcat : forall c, In c (regrouped_categories s) ->
                           products_of s' c = products_of s c).
  { intros c Hc. unfold products_of at 1. rewrite Hps.
    apply (regroup_select cat_id prod_categoryId (products s) c (regrouped_categories s));
      [exact Hdc' | exact Hc |].
    unfold regrouped_categories in Hc. apply filter_In in Hc. destruct Hc as [_ Hc].
    unfold has_products in Hc. apply existsb_exists in Hc. destruct Hc as [p [_ Hp]].
    pose proof (strict_eq_true _ _ Hp) as Heq. now rewrite <- Heq, Heq in Hp. }
  assert (Hmod : forall p, In p (regrouped_products s) ->
                           modifiers_of s' p = modifiers_of s p).
  { intros p Hp. unfold modifiers_of at 1. rewrite Hms.
    destruct (strict_eq (prod_id p) (prod_id p)) eqn:Hrefl.
    - apply (regroup_select prod_id mod_productId (modifiers s) p (regrouped_products s));
        [| exact Hp | exact Hrefl].
      apply (regroup_distinct cat_id prod_categoryId (products s) prod_id); assumption.
    - assert (Hno : forall m, strict_eq (mod_productId m) (prod_id p) = false).
      { intros m. apply not_true_is_false. intro Hc.
        pose proof (strict_eq_true _ _ Hc) as Heq. rewrite Heq in Hc. congruence. }
      unfold modifiers_of.
      rewrite !filter_nothing by (intros m _; apply Hno). reflexivity. }
  unfold spec_menu. rewrite Hcs.
  rewrite (filter_all (has_products s') (regrouped_categories s)).
  - fold (regrouped_categories s). apply map_ext_in. intros c Hc.
    unfold spec_category_entry. rewrite (Hcat c Hc).
    assert (Hentries : map (spec_product_entry s') (products_of s c)
                       = map (spec_product_entry s) (products_of s c)).
    { apply map_ext_in. intros p Hp.
      unfold spec_product_entry. rewrite Hmod; [reflexivity |].
      unfold regrouped_products. apply in_flat_map. now exists c. }
    now rewrite Hentries.
  - apply forallb_forall. intros c Hc.
    rewrite has_products_nonempty, (Hcat c Hc), <- has_products_nonempty.
    unfold regrouped_categories in Hc. apply filter_In in Hc. now destruct Hc.
Qed.

(** X22.  The round trip changes nothing the export shows: for a store
    whose fields survive it and whose category ids, and product ids, are
    pairwise different, the [menu] array exported after the export was
    imported again is the [menu] array exported before. *)
Theorem export_unchanged_by_reimport (created created' : string) (s : MenuBuilder)
        (w : world) :
  fields_survive s = true ->
  distinct_ids (map cat_id (categories s)) = true ->
  distinct_ids (map prod_id (products s)) = true ->
  field (generateJSON created' (after (reimport created s) w)) "menu"
  = field (generateJSON created s) "menu".
Proof.
  intros Hf Hdc Hdp. unfold after. rewrite (reimport_run created s w Hf).
  cbn [snd]. rewrite !generateJSON_menu. f_equal.
  now apply spec_menu_regrouped.
Qed.

Lemma export_unchanged_by_reimport_witness :
  field (generateJSON "2025-01-02"
           (after (reimport "2025-01-01" interleaved) (at_time 0 orphans))) "menu"
  = field (generateJSON "2025-01-01" interleaved) "menu".
Proof.
  apply (export_unchanged_by_reimport "2025-01-01" "2025-01-02" interleaved
           (at_time 0 orphans)); reflexivity.
Defined.

(** ** A click on the product button in edit mode *)

Lemma updateProduct_refuses (id : jsval) (f : product_form) (w : world) :
  form_passes f = false ->
  exists m, updateProduct id f w = (Normal (showToast m error), w).
Proof.
  unfold form_passes, updateProduct. intro H.
  destruct (num_truthy (pf_categoryId f)); cbn [negb andb] in *; [| shown].
  destruct (str_truthy (pf_name f)); cbn [negb andb] in *; [| shown].
  destruct (str_truthy (pf_description f)); cbn [negb andb] in *; [| shown].
  apply negb_false_iff in H.
  assert (Hle : isNaN (pf_price f) || num_le (pf_price f) (int 0) = true).
  { destruct (pf_price f) as [| negative | q]; [reflexivity | |].
    - cbn in H |- *. now rewrite H.
    - cbn [isNaN orb] in H |- *. unfold num_le, num_lt, int, Qccompare in *.
      rewrite <- Qcompare_antisym.
      destruct (Qcompare q (Q2Qc (inject_Z 0))); try discriminate; reflexivity. }
  rewrite Hle. shown.
Qed.

(** X23.  A click on the product button in edit mode never updates the
    edited product.  If the form passes the four checks of [addProduct]
    (a price of 0 included), [addProduct] appends the form as a new product
    under a fresh id and clears the form, and the update handler then
    refuses the form without a category.  Otherwise [addProduct] refuses,
    the handler, whose checks are the same or stricter, refuses as well,
    and nothing changes. *)
Theorem edit_click_never_updates_product (id : jsval) (f : product_form) (w : world) :
  (form_passes f = true ->
   click_update_product id f w
   = (Normal (showToast Msg_select_category error),
      tick w (with_products (self w)
                (products (self w) ++ [product_of_form (now w) f]))))
  /\ (form_passes f = false ->
      exists m, click_update_product id f w = (Normal (showToast m error), w)).
Proof.
  unfold click_update_product, product_form_after. split; intros Hf; rewrite Hf.
  - now rewrite (addProduct_appends f w Hf).
  - destruct (addProduct_rejects f w Hf) as [m Hadd]. rewrite Hadd.
    now apply updateProduct_refuses.
Qed.

(** X23 at work, "Fanta" (product 21 of [drinks]) being edited: the click
    with [sprite_form] appends "Sprite" as a third product and leaves
    "Fanta" as it was; the free product of [free_sample] is appended too;
    the form without a name changes nothing. *)
Lemma edit_click_never_updates_product_witness :
  run (click_update_product (num 21) sprite_form) (at_time 30 drinks)
  = (Normal (showToast Msg_select_category error),
     with_products drinks
       [product 20 2 "Cola"; product 21 2 "Fanta"; product_of_form (num 30) sprite_form])
  /\ products (after (click_update_product (num 21) free_sample) (at_time 30 drinks))
     = [product 20 2 "Cola"; product 21 2 "Fanta"; product_of_form (num 30) free_sample]
  /\ run (click_update_product (num 21) unnamed_form) (at_time 30 drinks)
     = (Normal (showToast Msg_product_name_empty error), drinks).
Proof.
  destruct (edit_click_never_updates_product (num 21) sprite_form (at_time 30 drinks))
    as [Hsprite _].
  destruct (edit_click_never_updates_product (num 21) free_sample (at_time 30 drinks))
    as [Hfree _].
  unfold run, after. rewrite (Hsprite eq_refl), (Hfree eq_refl).
  repeat split.
Defined.
